(** * texture-blend-webgl: a shallow embedding and its verified properties

    The program is one JavaScript closure over a canvas.  It builds two
    matrix constructors, loads two textures, builds two textured meshes out
    of one icosahedron, uploads their buffers, and then draws the scene once
    the textures are ready and again on every mouse drag.

    Modelling conventions.
    - A JavaScript Number that carries a measured quantity (matrix entries,
      angles, pointer coordinates, colour channels, array lengths used in
      divisions) is a real number: arithmetic is exact, rounding and the
      special values of binary64 are outside the model.  [Math.sqrt],
      [Math.sin], [Math.cos] and [Math.PI] are [sqrt], [sin], [cos], [PI].
      Where the range of binary64 decides a property, [getRotationMatrix]
      is embedded a second time, over binary64 numbers (module
      [Binary64]).
    - The texture counter is an integer ([Z]); array positions are [nat].
    - A JavaScript array is a [list]; a property that may be [undefined] is
      an [option].
    - The WebGL context is observed through the chronological trace of the
      calls made on it; a small interpreter of that trace gives the context
      state in force at each [drawArrays].
    - The browser is an event loop: image loads, animation frames and mouse
      events are dispatched one at a time to the handlers of the program. *)

From Stdlib Require Import Reals Lra Lia List Arith ZArith Bool Permutation.
From Stdlib Require Import RNsatz.
From Stdlib Require PrimFloat SpecFloat FloatOps FloatAxioms.
Import ListNotations.

Open Scope R_scope.

(** ** Transform math (source lines 15-96) *)

Module TransformMath.

(** [getRotationMatrix], lines 15-62: the glRotate matrix, column major. *)
Definition getRotationMatrix (angle x y z : R) : list R :=
  let axisLength := sqrt ((x * x) + (y * y) + (z * z)) in
  let s := sin (angle * PI / 180) in
  let c := cos (angle * PI / 180) in
  let oneMinusC := 1 - c in
  let x := x / axisLength in
  let y := y / axisLength in
  let z := z / axisLength in
  let x2 := x * x in
  let y2 := y * y in
  let z2 := z * z in
  let xy := x * y in
  let yz := y * z in
  let xz := x * z in
  let xs := x * s in
  let ys := y * s in
  let zs := z * s in
  [ (x2 * oneMinusC) + c;
    (xy * oneMinusC) + zs;
    (xz * oneMinusC) - ys;
    0;

    (xy * oneMinusC) - zs;
    (y2 * oneMinusC) + c;
    (yz * oneMinusC) + xs;
    0;

    (xz * oneMinusC) + ys;
    (yz * oneMinusC) - xs;
    (z2 * oneMinusC) + c;
    0;

    0;
    0;
    0;
    1 ].

(** [getOrthoMatrix], lines 70-96. *)
Definition getOrthoMatrix (left right bottom top zNear zFar : R) : list R :=
  let width := right - left in
  let height := top - bottom in
  let depth := zFar - zNear in
  [ 2 / width;
    0;
    0;
    0;

    0;
    2 / height;
    0;
    0;

    0;
    0;
    -2 / depth;
    0;

    - (right + left) / width;
    - (top + bottom) / height;
    - (zFar + zNear) / depth;
    1 ].

(** The identity matrix written out in [drawObject], lines 314-317. *)
Definition identityMatrix : list R :=
  [ 1; 0; 0; 0;
    0; 1; 0; 0;
    0; 0; 1; 0;
    0; 0; 0; 1 ].

(** Entry [i] of a flat matrix; column [c], row [r] sits at [4 * c + r]. *)
Definition entry (m : list R) (i : nat) : R := nth i m 0.

(** A column-major 4x4 matrix applied to the homogeneous point
    [(x, y, z, 1)], as the vertex shader does with a [vec4]. *)
Definition transformPoint (m : list R) (x y z : R) : list R :=
  [ entry m 0 * x + entry m 4 * y + entry m 8 * z + entry m 12 * 1;
    entry m 1 * x + entry m 5 * y + entry m 9 * z + entry m 13 * 1;
    entry m 2 * x + entry m 6 * y + entry m 10 * z + entry m 14 * 1;
    entry m 3 * x + entry m 7 * y + entry m 11 * z + entry m 15 * 1 ].

End TransformMath.

(** ** Transform math in binary64 *)

(** [getRotationMatrix] once more, with every Number a binary64 number and
    every operation the IEEE 754 one, so that underflow, overflow, the
    infinities and NaN behave as in the program.  [Math.sin] and [Math.cos]
    are parameters: ECMAScript fixes [Math.sin(+0) = +0] and
    [Math.cos(+0) = 1] and leaves their other values to the
    implementation. *)
Module Binary64.
Import PrimFloat.
#[local] Open Scope float_scope.

(** [Math.PI], the binary64 number nearest to pi. *)
Definition PI : float := 0x1.921fb54442d18p+1.

Section Math.

Variables sin cos : float -> float.

(** [getRotationMatrix], lines 15-62. *)
Definition getRotationMatrix (angle x y z : float) : list float :=
  let axisLength := sqrt ((x * x) + (y * y) + (z * z)) in
  let s := sin (angle * PI / 180) in
  let c := cos (angle * PI / 180) in
  let oneMinusC := 1 - c in
  let x := x / axisLength in
  let y := y / axisLength in
  let z := z / axisLength in
  let x2 := x * x in
  let y2 := y * y in
  let z2 := z * z in
  let xy := x * y in
  let yz := y * z in
  let xz := x * z in
  let xs := x * s in
  let ys := y * s in
  let zs := z * s in
  [ (x2 * oneMinusC) + c;
    (xy * oneMinusC) + zs;
    (xz * oneMinusC) - ys;
    0;

    (xy * oneMinusC) - zs;
    (y2 * oneMinusC) + c;
    (yz * oneMinusC) + xs;
    0;

    (xz * oneMinusC) + ys;
    (yz * oneMinusC) - xs;
    (z2 * oneMinusC) + c;
    0;

    0;
    0;
    0;
    1 ].

End Math.

(** The identity matrix of lines 314-317. *)
Definition identityMatrix : list float :=
  [ 1; 0; 0; 0;
    0; 1; 0; 0;
    0; 0; 1; 0;
    0; 0; 0; 1 ].

(** Entry-by-entry [==] of two matrices: a NaN equals nothing, and the two
    zeros are equal. *)
Fixpoint matrixEqb (m n : list float) : bool :=
  match m, n with
  | [], [] => true
  | a :: m', b :: n' => (a =? b) && matrixEqb m' n'
  | _, _ => false
  end.

(** One sine and one cosine with the two values ECMAScript fixes at 0
    (truncated series), for the places where a concrete [Math] is needed;
    only their values at 0 are ever used. *)
Definition seriesSin (a : float) : float :=
  a - a * a * a / 6 + a * a * a * a * a / 120.

Definition seriesCos (a : float) : float :=
  1 - a * a / 2 + a * a * a * a / 24.

(** The binary64 number written [1e-200] in JavaScript. *)
Definition tiny : float := 0x1.87e92154ef7acp-665.

(** A zero or a finite number, in the specification of binary64. *)
Definition SFfinite (f : SpecFloat.spec_float) : bool :=
  match f with
  | SpecFloat.S754_zero _ | SpecFloat.S754_finite _ _ _ => true
  | _ => false
  end.

End Binary64.

(** ** The rotation matrix of the reference *)

Module TransformSpec.


End TransformSpec.

(** ** JavaScript arrays and loops *)

Module Array.

(** [Array.prototype.forEach] with the callback receiving the element and
    its index, the callback acting on a state [St]. *)
Fixpoint forEachFrom {A St : Type} (callback : A -> nat -> St -> St)
    (array : list A) (index : nat) (s : St) : St :=
  match array with
  | [] => s
  | element :: rest =>
      forEachFrom callback rest (S index) (callback element index s)
  end.

Definition forEach {A St : Type} (callback : A -> nat -> St -> St)
    (array : list A) : St -> St :=
  forEachFrom callback array 0.

(** [Array.prototype.filter] with the callback receiving the element and
    its index. *)
Fixpoint filterFrom {A : Type} (callback : A -> nat -> bool)
    (array : list A) (index : nat) : list A :=
  match array with
  | [] => []
  | element :: rest =>
      if callback element index
      then element :: filterFrom callback rest (S index)
      else filterFrom callback rest (S index)
  end.

Definition filter {A : Type} (callback : A -> nat -> bool)
    (array : list A) : list A :=
  filterFrom callback array 0.

(** Truthiness of a number used as a condition: every number but 0. *)
Definition truthy (n : nat) : bool := negb (n =? 0)%nat.

(** [for (let i = start; i < maxi; i += 1) body], the bound being a real
    number.  The loop is run with fuel; [None] is "fuel exhausted". *)
Fixpoint forLoop {St : Type} (fuel : nat) (maxi : R) (body : nat -> St -> St)
    (i : nat) (s : St) : option St :=
  match fuel with
  | O => None
  | S fuel' =>
      if Rlt_dec (INR i) maxi
      then forLoop fuel' maxi body (S i) (body i s)
      else Some s
  end.

(** [for (let i = 0; i < n; i += 1) body] with a literal integer bound. *)
Fixpoint forCount {St : Type} (n : nat) (body : St -> St) (s : St) : St :=
  match n with
  | O => s
  | S n' => forCount n' body (body s)
  end.

End Array.

(** ** The collaborators that are not part of this source file *)

Module DOM.

Record Canvas := { width : R; height : R }.

Record MouseEvent := { clientX : R; clientY : R }.

(** The two [Image] objects created at lines 132 and 136. *)
Inductive Image := goldImage | waterImage.

Definition Image_eqb (a b : Image) : bool :=
  match a, b with
  | goldImage, goldImage | waterImage, waterImage => true
  | _, _ => false
  end.

End DOM.

Module Shapes.

(** An indexed mesh: vertex coordinates and triangles given by positions in
    the vertex list. *)
Record Mesh := { vertices : list (list R); indices : list (list nat) }.

(** Modelled from the spec: the [Shapes] library (the "Geometry Provider")
    is not part of the source; it is taken as a parameter supplying the
    icosahedron mesh and the two flattening helpers. *)
Record Library := {
  icosahedron : Mesh;
  toRawTriangleArray : Mesh -> list R;
  toNormalArray : Mesh -> list R
}.

End Shapes.

(** The part of the WebGL API the program calls. *)
Module GL.

Inductive Capability := DEPTH_TEST | BLEND.

Inductive Mode :=
  POINTS | LINES | LINE_LOOP | LINE_STRIP
| TRIANGLES | TRIANGLE_STRIP | TRIANGLE_FAN.

Inductive TextureUnit := TEXTURE0 | TEXTURE1.

(** The two handles returned by [gl.createTexture], lines 115-116. *)
Inductive Texture := goldTexture | waterTexture.

Inductive TexParameter := TEXTURE_MAG_FILTER | TEXTURE_MIN_FILTER.

Inductive TexFilter := LINEAR | LINEAR_MIPMAP_NEAREST.

Inductive BlendFactor := SRC_ALPHA | ONE.

(** Modelled from the spec: [GLSLUtilities.initVertexBuffer] is not part of
    the source ("vertex-buffer upload is a thin I/O wrapper"); a buffer is
    identified with the array uploaded into it. *)
Inductive Buffer := BufferOf (data : list R).

End GL.

(** Attribute and uniform locations of the shader program, named after the
    variables that hold them (lines 269-293). *)
Module Shader.

Inductive Attribute :=
  vertexPosition | vertexDiffuseColor | vertexSpecularColor
| normalVector | textureCoordinate.

Inductive Uniform :=
  modelViewMatrix | xRotationMatrix | yRotationMatrix | projectionMatrix
| lightPosition | lightDiffuse | lightSpecular | shininess | alpha | sampler.

Definition Attribute_eqb (a b : Attribute) : bool :=
  match a, b with
  | vertexPosition, vertexPosition
  | vertexDiffuseColor, vertexDiffuseColor
  | vertexSpecularColor, vertexSpecularColor
  | normalVector, normalVector
  | textureCoordinate, textureCoordinate => true
  | _, _ => false
  end.

Definition Uniform_eqb (a b : Uniform) : bool :=
  match a, b with
  | modelViewMatrix, modelViewMatrix
  | xRotationMatrix, xRotationMatrix
  | yRotationMatrix, yRotationMatrix
  | projectionMatrix, projectionMatrix
  | lightPosition, lightPosition
  | lightDiffuse, lightDiffuse
  | lightSpecular, lightSpecular
  | shininess, shininess
  | alpha, alpha
  | sampler, sampler => true
  | _, _ => false
  end.

End Shader.

Module Trace.

(** One call on the WebGL context that changes or uses its state, with the
    arguments the program passes.  The lookups [getAttribLocation] and
    [getUniformLocation], which return a location and change nothing, are
    not recorded: a location stands for the variable that holds it.
    Arguments that are the same constant at every call site are left out:
    the mask of [clear], the target of [bindBuffer], [bindTexture],
    [texImage2D], [texParameteri] and [generateMipmap], the formats of
    [texImage2D], the transpose flag of [uniformMatrix4fv], and the type,
    normalisation flag, stride and offset of [vertexAttribPointer]. *)
Inductive Call :=
| enable (cap : GL.Capability)
| disable (cap : GL.Capability)
| clearColor (red green blue alpha : R)
| viewport (x y width height : R)
| blendFunc (sfactor dfactor : GL.BlendFactor)
| useProgram
| enableVertexAttribArray (index : Shader.Attribute)
| clear
| flush
| activeTexture (unit : GL.TextureUnit)
| bindTexture (texture : GL.Texture)
| texImage2D (image : DOM.Image)
| texParameteri (pname : GL.TexParameter) (param : GL.TexFilter)
| generateMipmap
| uniform1i (location : Shader.Uniform) (v : Z)
| uniform1f (location : Shader.Uniform) (v : R)
| uniform3fv (location : Shader.Uniform) (v : list R)
| uniform4fv (location : Shader.Uniform) (v : list R)
| uniformMatrix4fv (location : Shader.Uniform) (value : list R)
| bindBuffer (buffer : option GL.Buffer)
| vertexAttribPointer (index : Shader.Attribute) (size : nat)
| drawArrays (mode : GL.Mode) (first : R) (count : R).

End Trace.

(** ** The scene object model (source lines 140-236) *)

Module Color.
Record t := { r : R; g : R; b : R }.
End Color.

Module Rotation.
Record t := { theta : R; x : R; y : R; z : R }.
End Rotation.

Module Scene.

(** One entry of [objectsToDraw].  The object literals of lines 149-195 set
    the first seven properties; [colors], [specularColors] and [rotation]
    are read by the program and may be [undefined]; the five buffers are
    added by the buffer-setup pass. *)
Record ObjectToDraw := {
  vertices : list R;
  color : Color.t;
  specularColor : Color.t;
  shininess : R;
  normals : list R;
  textureCoordinates : list R;
  mode : GL.Mode;
  colors : option (list R);
  specularColors : option (list R);
  rotation : option Rotation.t;
  vertexBuffer : option GL.Buffer;
  colorBuffer : option GL.Buffer;
  specularBuffer : option GL.Buffer;
  normalBuffer : option GL.Buffer;
  textureCoordinateBuffer : option GL.Buffer
}.

Definition set_colors (v : option (list R)) (o : ObjectToDraw) :=
  {| vertices := vertices o; color := color o;
     specularColor := specularColor o; shininess := shininess o;
     normals := normals o; textureCoordinates := textureCoordinates o;
     mode := mode o; colors := v; specularColors := specularColors o;
     rotation := rotation o; vertexBuffer := vertexBuffer o;
     colorBuffer := colorBuffer o; specularBuffer := specularBuffer o;
     normalBuffer := normalBuffer o;
     textureCoordinateBuffer := textureCoordinateBuffer o |}.

Definition set_specularColors (v : option (list R)) (o : ObjectToDraw) :=
  {| vertices := vertices o; color := color o;
     specularColor := specularColor o; shininess := shininess o;
     normals := normals o; textureCoordinates := textureCoordinates o;
     mode := mode o; colors := colors o; specularColors := v;
     rotation := rotation o; vertexBuffer := vertexBuffer o;
     colorBuffer := colorBuffer o; specularBuffer := specularBuffer o;
     normalBuffer := normalBuffer o;
     textureCoordinateBuffer := textureCoordinateBuffer o |}.

Definition set_vertexBuffer (v : option GL.Buffer) (o : ObjectToDraw) :=
  {| vertices := vertices o; color := color o;
     specularColor := specularColor o; shininess := shininess o;
     normals := normals o; textureCoordinates := textureCoordinates o;
     mode := mode o; colors := colors o; specularColors := specularColors o;
     rotation := rotation o; vertexBuffer := v;
     colorBuffer := colorBuffer o; specularBuffer := specularBuffer o;
     normalBuffer := normalBuffer o;
     textureCoordinateBuffer := textureCoordinateBuffer o |}.

Definition set_colorBuffer (v : option GL.Buffer) (o : ObjectToDraw) :=
  {| vertices := vertices o; color := color o;
     specularColor := specularColor o; shininess := shininess o;
     normals := normals o; textureCoordinates := textureCoordinates o;
     mode := mode o; colors := colors o; specularColors := specularColors o;
     rotation := rotation o; vertexBuffer := vertexBuffer o;
     colorBuffer := v; specularBuffer := specularBuffer o;
     normalBuffer := normalBuffer o;
     textureCoordinateBuffer := textureCoordinateBuffer o |}.

Definition set_specularBuffer (v : option GL.Buffer) (o : ObjectToDraw) :=
  {| vertices := vertices o; color := color o;
     specularColor := specularColor o; shininess := shininess o;
     normals := normals o; textureCoordinates := textureCoordinates o;
     mode := mode o; colors := colors o; specularColors := specularColors o;
     rotation := rotation o; vertexBuffer := vertexBuffer o;
     colorBuffer := colorBuffer o; specularBuffer := v;
     normalBuffer := normalBuffer o;
     textureCoordinateBuffer := textureCoordinateBuffer o |}.

Definition set_normalBuffer (v : option GL.Buffer) (o : ObjectToDraw) :=
  {| vertices := vertices o; color := color o;
     specularColor := specularColor o; shininess := shininess o;
     normals := normals o; textureCoordinates := textureCoordinates o;
     mode := mode o; colors := colors o; specularColors := specularColors o;
     rotation := rotation o; vertexBuffer := vertexBuffer o;
     colorBuffer := colorBuffer o; specularBuffer := specularBuffer o;
     normalBuffer := v;
     textureCoordinateBuffer := textureCoordinateBuffer o |}.

Definition set_textureCoordinateBuffer (v : option GL.Buffer)
    (o : ObjectToDraw) :=
  {| vertices := vertices o; color := color o;
     specularColor := specularColor o; shininess := shininess o;
     normals := normals o; textureCoordinates := textureCoordinates o;
     mode := mode o; colors := colors o; specularColors := specularColors o;
     rotation := rotation o; vertexBuffer := vertexBuffer o;
     colorBuffer := colorBuffer o; specularBuffer := specularBuffer o;
     normalBuffer := normalBuffer o;
     textureCoordinateBuffer := v |}.

(** [GLSLUtilities.initVertexBuffer(gl, data)]; an [undefined] array gives
    no buffer. *)
Definition initVertexBuffer (data : option (list R)) : option GL.Buffer :=
  option_map GL.BufferOf data.

(** [array.concat(a, b, c)] on a property that may be [undefined]. *)
Definition concat (array : option (list R)) (a b c : R) : option (list R) :=
  option_map (fun l => l ++ [a; b; c]) array.

(** The immediately-invoked function of lines 162-168 and 186-192. *)
Definition generateTextureCoordinates : list R :=
  Array.forCount 10 (fun result => result ++ [0; 0; 1; 0; 0; 1]) [].

Section Construction.

Variable shapes : Shapes.Library.

(** Lines 142-146. *)
Definition goldMesh : Shapes.Mesh :=
  let goldMesh := Shapes.icosahedron shapes in
  {| Shapes.vertices := Shapes.vertices goldMesh;
     Shapes.indices :=
       Array.filter (fun triangle index => Array.truthy (index mod 2))
         (Shapes.indices goldMesh) |}.

Definition waterMesh : Shapes.Mesh :=
  let waterMesh := Shapes.icosahedron shapes in
  {| Shapes.vertices := Shapes.vertices waterMesh;
     Shapes.indices :=
       Array.filter
         (fun triangle index => negb (Array.truthy (index mod 2)))
         (Shapes.indices waterMesh) |}.

(** The array literal of lines 148-196, before the buffer-setup pass. *)
Definition objectLiterals : list ObjectToDraw :=
  [ {| vertices := Shapes.toRawTriangleArray shapes goldMesh;
       color := {| Color.r := 1; Color.g := 0; Color.b := 0 |};
       specularColor := {| Color.r := 1; Color.g := 1; Color.b := 1 |};
       shininess := 16;
       normals := Shapes.toNormalArray shapes goldMesh;
       textureCoordinates := generateTextureCoordinates;
       mode := GL.TRIANGLES;
       colors := None; specularColors := None; rotation := None;
       vertexBuffer := None; colorBuffer := None; specularBuffer := None;
       normalBuffer := None; textureCoordinateBuffer := None |};
    {| vertices := Shapes.toRawTriangleArray shapes waterMesh;
       color := {| Color.r := 0; Color.g := 0; Color.b := 1 |};
       specularColor := {| Color.r := 1; Color.g := 1; Color.b := 1 |};
       shininess := 16;
       normals := Shapes.toNormalArray shapes waterMesh;
       textureCoordinates := generateTextureCoordinates;
       mode := GL.TRIANGLES;
       colors := None; specularColors := None; rotation := None;
       vertexBuffer := None; colorBuffer := None; specularBuffer := None;
       normalBuffer := None; textureCoordinateBuffer := None |} ].

End Construction.

(** The body of the [forEach] callback of lines 199-236, for one object.
    Each loop gets one unit of fuel more than the length of [vertices]. *)
Definition setupObject (objectToDraw : ObjectToDraw) : option ObjectToDraw :=
  let fuel := S (length (vertices objectToDraw)) in
  let objectToDraw :=
    set_vertexBuffer (initVertexBuffer (Some (vertices objectToDraw)))
      objectToDraw in
  match
    match colors objectToDraw with
    | None =>
        Array.forLoop fuel (INR (length (vertices objectToDraw)) / 3)
          (fun i objectToDraw =>
             set_colors
               (concat (colors objectToDraw)
                  (Color.r (color objectToDraw))
                  (Color.g (color objectToDraw))
                  (Color.b (color objectToDraw)))
               objectToDraw)
          0%nat (set_colors (Some []) objectToDraw)
    | Some _ => Some objectToDraw
    end
  with
  | None => None
  | Some objectToDraw =>
      let objectToDraw :=
        set_colorBuffer (initVertexBuffer (colors objectToDraw))
          objectToDraw in
      match
        match specularColors objectToDraw with
        | None =>
            Array.forLoop fuel (INR (length (vertices objectToDraw)) / 3)
              (fun j objectToDraw =>
                 set_specularColors
                   (concat (specularColors objectToDraw)
                      (Color.r (specularColor objectToDraw))
                      (Color.g (specularColor objectToDraw))
                      (Color.b (specularColor objectToDraw)))
                   objectToDraw)
              0%nat (set_specularColors (Some []) objectToDraw)
        | Some _ => Some objectToDraw
        end
      with
      | None => None
      | Some objectToDraw =>
          let objectToDraw :=
            set_specularBuffer
              (initVertexBuffer (specularColors objectToDraw))
              objectToDraw in
          let objectToDraw :=
            set_normalBuffer
              (initVertexBuffer (Some (normals objectToDraw)))
              objectToDraw in
          Some
            (set_textureCoordinateBuffer
               (initVertexBuffer (Some (textureCoordinates objectToDraw)))
               objectToDraw)
      end
  end.

(** [objectsToDraw.forEach] of line 199: every object is updated in place,
    in list order. *)
Fixpoint setupObjects (objectsToDraw : list ObjectToDraw)
    : option (list ObjectToDraw) :=
  match objectsToDraw with
  | [] => Some []
  | objectToDraw :: rest =>
      match setupObject objectToDraw with
      | None => None
      | Some objectToDraw' =>
          match setupObjects rest with
          | None => None
          | Some rest' => Some (objectToDraw' :: rest')
          end
      end
  end.

End Scene.

(** ** The page: program variables, WebGL trace and browser queues *)

Module Page.
Import TransformMath.
Export Scene.

(** What a bound [mousemove] listener and a queued animation-frame callback
    can be in this program. *)
Inductive Listener := rotateSceneListener.
Inductive FrameCallback := drawWhenReadyCallback.

(** The mutable variables of the closure, the trace of WebGL calls, and the
    browser state the program depends on: the listeners bound to the
    canvas's [mousemove], the callbacks queued by
    [window.requestAnimationFrame], and the images still loading. *)
Record t := {
  readyTexture : Z;
  objectsToDraw : list ObjectToDraw;
  rotationAroundX : R;
  rotationAroundY : R;
  xDragStart : option R;
  yDragStart : option R;
  xRotationStart : option R;
  yRotationStart : option R;
  gl : list Trace.Call;
  mousemove : list Listener;
  animationFrameCallbacks : list FrameCallback;
  loading : list DOM.Image
}.

Definition set_readyTexture (v : Z) (p : t) : t :=
  {| readyTexture := v; objectsToDraw := objectsToDraw p;
     rotationAroundX := rotationAroundX p;
     rotationAroundY := rotationAroundY p;
     xDragStart := xDragStart p; yDragStart := yDragStart p;
     xRotationStart := xRotationStart p; yRotationStart := yRotationStart p;
     gl := gl p; mousemove := mousemove p;
     animationFrameCallbacks := animationFrameCallbacks p;
     loading := loading p |}.

Definition set_rotation (aroundX aroundY : R) (p : t) : t :=
  {| readyTexture := readyTexture p; objectsToDraw := objectsToDraw p;
     rotationAroundX := aroundX;
     rotationAroundY := aroundY;
     xDragStart := xDragStart p; yDragStart := yDragStart p;
     xRotationStart := xRotationStart p; yRotationStart := yRotationStart p;
     gl := gl p; mousemove := mousemove p;
     animationFrameCallbacks := animationFrameCallbacks p;
     loading := loading p |}.

Definition set_dragStart (x y xRotation yRotation : option R) (p : t) : t :=
  {| readyTexture := readyTexture p; objectsToDraw := objectsToDraw p;
     rotationAroundX := rotationAroundX p;
     rotationAroundY := rotationAroundY p;
     xDragStart := x; yDragStart := y;
     xRotationStart := xRotation; yRotationStart := yRotation;
     gl := gl p; mousemove := mousemove p;
     animationFrameCallbacks := animationFrameCallbacks p;
     loading := loading p |}.

Definition set_gl (v : list Trace.Call) (p : t) : t :=
  {| readyTexture := readyTexture p; objectsToDraw := objectsToDraw p;
     rotationAroundX := rotationAroundX p;
     rotationAroundY := rotationAroundY p;
     xDragStart := xDragStart p; yDragStart := yDragStart p;
     xRotationStart := xRotationStart p; yRotationStart := yRotationStart p;
     gl := v; mousemove := mousemove p;
     animationFrameCallbacks := animationFrameCallbacks p;
     loading := loading p |}.

Definition set_mousemove (v : list Listener) (p : t) : t :=
  {| readyTexture := readyTexture p; objectsToDraw := objectsToDraw p;
     rotationAroundX := rotationAroundX p;
     rotationAroundY := rotationAroundY p;
     xDragStart := xDragStart p; yDragStart := yDragStart p;
     xRotationStart := xRotationStart p; yRotationStart := yRotationStart p;
     gl := gl p; mousemove := v;
     animationFrameCallbacks := animationFrameCallbacks p;
     loading := loading p |}.

Definition set_animationFrameCallbacks (v : list FrameCallback) (p : t) : t :=
  {| readyTexture := readyTexture p; objectsToDraw := objectsToDraw p;
     rotationAroundX := rotationAroundX p;
     rotationAroundY := rotationAroundY p;
     xDragStart := xDragStart p; yDragStart := yDragStart p;
     xRotationStart := xRotationStart p; yRotationStart := yRotationStart p;
     gl := gl p; mousemove := mousemove p;
     animationFrameCallbacks := v;
     loading := loading p |}.

Definition set_loading (v : list DOM.Image) (p : t) : t :=
  {| readyTexture := readyTexture p; objectsToDraw := objectsToDraw p;
     rotationAroundX := rotationAroundX p;
     rotationAroundY := rotationAroundY p;
     xDragStart := xDragStart p; yDragStart := yDragStart p;
     xRotationStart := xRotationStart p; yRotationStart := yRotationStart p;
     gl := gl p; mousemove := mousemove p;
     animationFrameCallbacks := animationFrameCallbacks p;
     loading := v |}.

(** A call on [gl]: appended to the trace. *)
Definition call (c : Trace.Call) (p : t) : t := set_gl (gl p ++ [c]) p.

(** Statement sequencing. *)
Definition andThen (first second : t -> t) : t -> t :=
  fun p => second (first p).

#[local] Infix ";;" := andThen (at level 61, right associativity).

(** [window.requestAnimationFrame(callback)]: the callback joins the queue
    of the next frame. *)
Definition requestAnimationFrame (callback : FrameCallback) (p : t) : t :=
  set_animationFrameCallbacks (animationFrameCallbacks p ++ [callback]) p.

(** [loadHandlerFor], lines 119-129: the function it returns. *)
Definition loadHandlerFor (texture : GL.Texture) (textureImage : DOM.Image)
    (textureId : GL.TextureUnit) : t -> t :=
  call (Trace.activeTexture textureId) ;;
  call (Trace.bindTexture texture) ;;
  call (Trace.texImage2D textureImage) ;;
  call (Trace.texParameteri GL.TEXTURE_MAG_FILTER GL.LINEAR) ;;
  call (Trace.texParameteri GL.TEXTURE_MIN_FILTER GL.LINEAR_MIPMAP_NEAREST) ;;
  call Trace.generateMipmap ;;
  (fun p => set_readyTexture (readyTexture p + 1)%Z p).

(** [drawObject], lines 299-332. *)
Definition drawObject (object : ObjectToDraw) : t -> t :=
  call (Trace.bindBuffer (colorBuffer object)) ;;
  call (Trace.vertexAttribPointer Shader.vertexDiffuseColor 3) ;;
  call (Trace.bindBuffer (specularBuffer object)) ;;
  call (Trace.vertexAttribPointer Shader.vertexSpecularColor 3) ;;
  call (Trace.uniform1f Shader.shininess (shininess object)) ;;
  call (Trace.uniformMatrix4fv Shader.modelViewMatrix
          match rotation object with
          | Some rotation =>
              getRotationMatrix (Rotation.theta rotation)
                (Rotation.x rotation) (Rotation.y rotation)
                (Rotation.z rotation)
          | None => identityMatrix
          end) ;;
  call (Trace.bindBuffer (normalBuffer object)) ;;
  call (Trace.vertexAttribPointer Shader.normalVector 3) ;;
  call (Trace.bindBuffer (textureCoordinateBuffer object)) ;;
  call (Trace.vertexAttribPointer Shader.textureCoordinate 2) ;;
  call (Trace.bindBuffer (vertexBuffer object)) ;;
  call (Trace.vertexAttribPointer Shader.vertexPosition 3) ;;
  call (Trace.drawArrays (mode object) 0
          (INR (length (vertices object)) / 3)).

(** [drawScene], lines 339-375. *)
Definition drawScene : t -> t :=
  call Trace.clear ;;
  (fun p =>
     call (Trace.uniformMatrix4fv Shader.xRotationMatrix
             (getRotationMatrix (rotationAroundX p) 1 0 0)) p) ;;
  (fun p =>
     call (Trace.uniformMatrix4fv Shader.yRotationMatrix
             (getRotationMatrix (rotationAroundY p) 0 1 0)) p) ;;
  (fun p =>
     Array.forEach
       (fun objectToDraw index =>
          let opaque :=
            Rlt_dec (INR index) (INR (length (objectsToDraw p)) / 2) in
          call (Trace.uniform1i Shader.sampler
                  (if opaque then 0%Z else 1%Z)) ;;
          (if opaque
           then
             call (Trace.enable GL.DEPTH_TEST) ;;
             call (Trace.disable GL.BLEND) ;;
             call (Trace.uniform1f Shader.alpha 1)
           else
             call (Trace.disable GL.DEPTH_TEST) ;;
             call (Trace.enable GL.BLEND) ;;
             call (Trace.uniform1f Shader.alpha (1 / 2))) ;;
          drawObject objectToDraw)
       (objectsToDraw p) p) ;;
  call Trace.flush.

(** [rotateScene], lines 385-389.  The four drag variables are [undefined]
    until the first [mousedown]; arithmetic on [undefined] is outside the
    model ([None]). *)
Definition rotateScene (event : DOM.MouseEvent) (p : t) : option t :=
  match xRotationStart p, yDragStart p, yRotationStart p, xDragStart p with
  | Some xRotationStart, Some yDragStart,
    Some yRotationStart, Some xDragStart =>
      Some
        (drawScene
           (set_rotation
              (xRotationStart - yDragStart + DOM.clientY event)
              (yRotationStart - xDragStart + DOM.clientX event) p))
  | _, _, _, _ => None
  end.

(** The [mousedown] handler, lines 415-421. *)
Definition mousedown (event : DOM.MouseEvent) (p : t) : t :=
  set_mousemove (mousemove p ++ [rotateSceneListener])
    (set_dragStart
       (Some (DOM.clientX event)) (Some (DOM.clientY event))
       (Some (rotationAroundX p)) (Some (rotationAroundY p)) p).

(** The [mouseup] handler, lines 421-423: [unbind("mousemove")]. *)
Definition mouseup (event : DOM.MouseEvent) (p : t) : t :=
  set_mousemove [] p.

(** [drawWhenReady], lines 427-433. *)
Definition drawWhenReady (p : t) : t :=
  if (readyTexture p =? 2)%Z
  then drawScene p
  else requestAnimationFrame drawWhenReadyCallback p.

(** The startup code outside the functions above, on the path where the
    WebGL context and the shader program are obtained (the two early
    returns of lines 100-105 and 260-263 end the program before anything is
    drawn): the settings of lines 110-112, the shader program and its
    attributes (lines 266-278), the projection and the light (lines
    397-412), the blend function (line 426); then the two images are
    loading, no listener is bound to [mousemove] and [drawWhenReady] is
    queued (line 435). *)
Definition startupCalls (canvas : DOM.Canvas) : list Trace.Call :=
  [ Trace.enable GL.DEPTH_TEST;
    Trace.clearColor 0 0 0 0;
    Trace.viewport 0 0 (DOM.width canvas) (DOM.height canvas);
    Trace.useProgram;
    Trace.enableVertexAttribArray Shader.vertexPosition;
    Trace.enableVertexAttribArray Shader.vertexDiffuseColor;
    Trace.enableVertexAttribArray Shader.vertexSpecularColor;
    Trace.enableVertexAttribArray Shader.normalVector;
    Trace.enableVertexAttribArray Shader.textureCoordinate;
    Trace.uniformMatrix4fv Shader.projectionMatrix
      (getOrthoMatrix
         (-2 * (DOM.width canvas / DOM.height canvas))
         (2 * (DOM.width canvas / DOM.height canvas))
         (-2)
         2
         (-10)
         10);
    Trace.uniform4fv Shader.lightPosition [-10; 10; 100; 1];
    Trace.uniform3fv Shader.lightDiffuse [1; 1; 1];
    Trace.uniform3fv Shader.lightSpecular [1; 1; 1];
    Trace.uniform1i Shader.sampler 0;
    Trace.blendFunc GL.SRC_ALPHA GL.ONE ].

Definition startup (canvas : DOM.Canvas) (shapes : Shapes.Library)
    : option t :=
  match setupObjects (objectLiterals shapes) with
  | None => None
  | Some objectsToDraw =>
      Some
        {| readyTexture := 0;
           objectsToDraw := objectsToDraw;
           rotationAroundX := 0;
           rotationAroundY := 0;
           xDragStart := None; yDragStart := None;
           xRotationStart := None; yRotationStart := None;
           gl := startupCalls canvas;
           mousemove := [];
           animationFrameCallbacks := [drawWhenReadyCallback];
           loading := [DOM.goldImage; DOM.waterImage] |}
  end.

End Page.

(** ** The browser's event loop *)

Module EventLoop.
Import Page.

Inductive Event :=
| Load (image : DOM.Image)
| AnimationFrame
| MouseDown (event : DOM.MouseEvent)
| MouseMove (event : DOM.MouseEvent)
| MouseUp (event : DOM.MouseEvent).

(** The [onload] handler installed on each image, lines 133 and 137. *)
Definition onload (image : DOM.Image) : Page.t -> Page.t :=
  match image with
  | DOM.goldImage => loadHandlerFor GL.goldTexture DOM.goldImage GL.TEXTURE0
  | DOM.waterImage =>
      loadHandlerFor GL.waterTexture DOM.waterImage GL.TEXTURE1
  end.

Definition isLoading (image : DOM.Image) (p : Page.t) : bool :=
  existsb (DOM.Image_eqb image) (loading p).

Definition runCallback (callback : FrameCallback) : Page.t -> Page.t :=
  match callback with
  | drawWhenReadyCallback => drawWhenReady
  end.

Definition runListener (listener : Listener) (event : DOM.MouseEvent)
    : Page.t -> option Page.t :=
  match listener with
  | rotateSceneListener => rotateScene event
  end.

(** All listeners bound when the event is dispatched run, in binding
    order. *)
Fixpoint runListeners (listeners : list Listener) (event : DOM.MouseEvent)
    (p : Page.t) : option Page.t :=
  match listeners with
  | [] => Some p
  | listener :: rest =>
      match runListener listener event p with
      | None => None
      | Some p' => runListeners rest event p'
      end
  end.

(** One turn of the event loop.
    - An image fires [load] once: the event is ignored unless the image is
      still loading.
    - An animation frame runs the callbacks queued before it; a callback
      that requests a frame joins the queue of the next one. *)
Definition dispatch (e : Event) (p : Page.t) : option Page.t :=
  match e with
  | Load image =>
      if isLoading image p
      then
        Some
          (onload image
             (set_loading
                (List.filter (fun i => negb (DOM.Image_eqb image i))
                   (loading p))
                p))
      else Some p
  | AnimationFrame =>
      Some
        (fold_left (fun p callback => runCallback callback p)
           (animationFrameCallbacks p)
           (set_animationFrameCallbacks [] p))
  | MouseDown event => Some (mousedown event p)
  | MouseMove event => runListeners (mousemove p) event p
  | MouseUp event => Some (mouseup event p)
  end.

Fixpoint run (events : list Event) (p : Page.t) : option Page.t :=
  match events with
  | [] => Some p
  | e :: rest =>
      match dispatch e p with
      | None => None
      | Some p' => run rest p'
      end
  end.

End EventLoop.

(** ** The WebGL context state read off a trace *)

Module Context.

(** The part of the context state the draw calls of this program depend
    on: the two capabilities, the scalar uniforms, the buffer bound to
    [ARRAY_BUFFER] and the buffer each attribute points into. *)
Record State := {
  depthTest : bool;
  blend : bool;
  uniformInt : Shader.Uniform -> option Z;
  uniformFloat : Shader.Uniform -> option R;
  arrayBuffer : option GL.Buffer;
  attribute : Shader.Attribute -> option GL.Buffer
}.

(** The state of a fresh context: capabilities off, nothing bound. *)
Definition initial : State :=
  {| depthTest := false; blend := false;
     uniformInt := fun _ => None; uniformFloat := fun _ => None;
     arrayBuffer := None; attribute := fun _ => None |}.

Definition setCapability (cap : GL.Capability) (v : bool) (st : State) :=
  match cap with
  | GL.DEPTH_TEST =>
      {| depthTest := v; blend := blend st;
         uniformInt := uniformInt st; uniformFloat := uniformFloat st;
         arrayBuffer := arrayBuffer st; attribute := attribute st |}
  | GL.BLEND =>
      {| depthTest := depthTest st; blend := v;
         uniformInt := uniformInt st; uniformFloat := uniformFloat st;
         arrayBuffer := arrayBuffer st; attribute := attribute st |}
  end.

Definition step (st : State) (c : Trace.Call) : State :=
  match c with
  | Trace.enable cap => setCapability cap true st
  | Trace.disable cap => setCapability cap false st
  | Trace.uniform1i location v =>
      {| depthTest := depthTest st; blend := blend st;
         uniformInt := fun u =>
           if Shader.Uniform_eqb u location then Some v else uniformInt st u;
         uniformFloat := uniformFloat st;
         arrayBuffer := arrayBuffer st; attribute := attribute st |}
  | Trace.uniform1f location v =>
      {| depthTest := depthTest st; blend := blend st;
         uniformInt := uniformInt st;
         uniformFloat := fun u =>
           if Shader.Uniform_eqb u location
           then Some v else uniformFloat st u;
         arrayBuffer := arrayBuffer st; attribute := attribute st |}
  | Trace.bindBuffer buffer =>
      {| depthTest := depthTest st; blend := blend st;
         uniformInt := uniformInt st; uniformFloat := uniformFloat st;
         arrayBuffer := buffer; attribute := attribute st |}
  | Trace.vertexAttribPointer index _ =>
      {| depthTest := depthTest st; blend := blend st;
         uniformInt := uniformInt st; uniformFloat := uniformFloat st;
         arrayBuffer := arrayBuffer st;
         attribute := fun a =>
           if Shader.Attribute_eqb a index
           then arrayBuffer st else attribute st a |}
  | _ => st
  end.

(** A [drawArrays] call together with the state it is issued in. *)
Record Draw := {
  state : State;
  mode : GL.Mode;
  first : R;
  count : R
}.

(** The draw calls of a trace played from state [st], in order. *)
Fixpoint draws (st : State) (calls : list Trace.Call) : list Draw :=
  match calls with
  | [] => []
  | c :: rest =>
      match c with
      | Trace.drawArrays mode first count =>
          {| state := st; mode := mode; first := first; count := count |}
          :: draws (step st c) rest
      | _ => draws (step st c) rest
      end
  end.

Definition run (st : State) (calls : list Trace.Call) : State :=
  fold_left step calls st.

(** Opaque mode and translucent mode of a draw call. *)
Definition opaqueMode (d : Draw) : Prop :=
  depthTest (state d) = true /\ blend (state d) = false /\
  uniformFloat (state d) Shader.alpha = Some 1 /\
  uniformInt (state d) Shader.sampler = Some 0%Z.

Definition translucentMode (d : Draw) : Prop :=
  depthTest (state d) = false /\ blend (state d) = true /\
  uniformFloat (state d) Shader.alpha = Some (1 / 2) /\
  uniformInt (state d) Shader.sampler = Some 1%Z.

(** The draw call [d] draws the object [o]: positions come from the
    object's vertex buffer, in the object's primitive mode, one vertex per
    three coordinates. *)
Definition drawsObject (d : Draw) (o : Scene.ObjectToDraw) : Prop :=
  attribute (state d) Shader.vertexPosition = Scene.vertexBuffer o /\
  mode d = Scene.mode o /\
  first d = 0 /\
  count d = INR (length (Scene.vertices o)) / 3.

(** The frames completed in a trace: [drawScene] ends each with [flush]. *)
Definition isFlush (c : Trace.Call) : bool :=
  match c with Trace.flush => true | _ => false end.

Definition frames (calls : list Trace.Call) : nat :=
  length (List.filter isFlush calls).

End Context.

(** ** Notions used to state the properties *)

(** *** Traces of the frame renderer *)

Module RendererSpec.
Import TransformMath Page Context.

(** The calls [drawObject] makes, in order. *)
Definition drawObjectCalls (object : ObjectToDraw) : list Trace.Call :=
  [ Trace.bindBuffer (colorBuffer object);
    Trace.vertexAttribPointer Shader.vertexDiffuseColor 3;
    Trace.bindBuffer (specularBuffer object);
    Trace.vertexAttribPointer Shader.vertexSpecularColor 3;
    Trace.uniform1f Shader.shininess (shininess object);
    Trace.uniformMatrix4fv Shader.modelViewMatrix
      match rotation object with
      | Some rotation =>
          getRotationMatrix (Rotation.theta rotation)
            (Rotation.x rotation) (Rotation.y rotation)
            (Rotation.z rotation)
      | None => identityMatrix
      end;
    Trace.bindBuffer (normalBuffer object);
    Trace.vertexAttribPointer Shader.normalVector 3;
    Trace.bindBuffer (textureCoordinateBuffer object);
    Trace.vertexAttribPointer Shader.textureCoordinate 2;
    Trace.bindBuffer (vertexBuffer object);
    Trace.vertexAttribPointer Shader.vertexPosition 3;
    Trace.drawArrays (Scene.mode object) 0
      (INR (length (vertices object)) / 3) ].

(** The calls one iteration of the [forEach] of [drawScene] makes for the
    object at position [index] of a list of [n] objects. *)
Definition iterationCalls (n index : nat) (object : ObjectToDraw)
    : list Trace.Call :=
  (if Rlt_dec (INR index) (INR n / 2)
   then [ Trace.uniform1i Shader.sampler 0;
          Trace.enable GL.DEPTH_TEST;
          Trace.disable GL.BLEND;
          Trace.uniform1f Shader.alpha 1 ]
   else [ Trace.uniform1i Shader.sampler 1;
          Trace.disable GL.DEPTH_TEST;
          Trace.enable GL.BLEND;
          Trace.uniform1f Shader.alpha (1 / 2) ])
  ++ drawObjectCalls object.

Fixpoint objectsCalls (n index : nat) (objects : list ObjectToDraw)
    : list Trace.Call :=
  match objects with
  | [] => []
  | object :: rest =>
      iterationCalls n index object ++ objectsCalls n (S index) rest
  end.

(** The trace of one frame. *)
Definition frameCalls (p : Page.t) : list Trace.Call :=
  [ Trace.clear;
    Trace.uniformMatrix4fv Shader.xRotationMatrix
      (getRotationMatrix (rotationAroundX p) 1 0 0);
    Trace.uniformMatrix4fv Shader.yRotationMatrix
      (getRotationMatrix (rotationAroundY p) 0 1 0) ]
  ++ objectsCalls (length (objectsToDraw p)) 0 (objectsToDraw p)
  ++ [ Trace.flush ].

(** A function on pages that only appends [calls] to the trace. *)
Definition emits (f : Page.t -> Page.t) (calls : list Trace.Call) : Prop :=
  forall p, f p = set_gl (gl p ++ calls) p.

(** The same for calls whose arguments are read from the page. *)
Definition emitsAt (f : Page.t -> Page.t)
    (calls : Page.t -> list Trace.Call) : Prop :=
  forall p, f p = set_gl (gl p ++ calls p) p.

Definition stable (calls : Page.t -> list Trace.Call) : Prop :=
  forall a p, calls (set_gl a p) = calls p.

(** How the object at position [i] of [n] is drawn. *)
Definition drawnAs (n i : nat) (o : ObjectToDraw) (d : Draw) : Prop :=
  drawsObject d o /\
  (INR i < INR n / 2 -> opaqueMode d) /\
  (~ INR i < INR n / 2 -> translucentMode d).

End RendererSpec.

(** *** Arrays built by the scene object model *)

Module SceneSpec.
Import Scene.

(** [k] rounds of a loop body that ignores its counter. *)
Fixpoint rounds {St : Type} (k : nat) (body : St -> St) (s : St) : St :=
  match k with
  | O => s
  | S k' => rounds k' body (body s)
  end.

(** The number of rounds of the two loops of the buffer-setup pass: the
    least integer that is not below [length / 3]. *)
Definition vertexCount (length : nat) : nat := (length + 2) / 3.

(** One colour repeated [k] times, flattened. *)
Definition expand (c : Color.t) (k : nat) : list R :=
  List.concat (repeat [Color.r c; Color.g c; Color.b c] k).

(** The array the pass leaves in [colors] (resp. [specularColors]): the
    supplied one, or the flat colour once per round of the loop. *)
Definition expanded (supplied : option (list R)) (c : Color.t)
    (length : nat) : list R :=
  match supplied with
  | Some array => array
  | None => expand c (vertexCount length)
  end.

Definition oddPositions {A : Type} (array : list A) (index : nat) : list A :=
  Array.filterFrom (fun _ index => Array.truthy (index mod 2)) array index.

Definition evenPositions {A : Type} (array : list A) (index : nat) : list A :=
  Array.filterFrom (fun _ index => negb (Array.truthy (index mod 2)))
    array index.


End SceneSpec.

(** *** Runs of the event loop *)

Module EventLoopSpec.
Import Page EventLoop Context.

(** The frames drawn from inside animation-frame callbacks, in one turn of
    the event loop and during a run: the frames of the startup scheduler,
    as opposed to the redraws of the mouse handler. *)
Definition schedulerDraws (e : Event) (p p' : Page.t) : nat :=
  match e with
  | AnimationFrame => frames (gl p') - frames (gl p)
  | _ => 0
  end.

Fixpoint schedulerFrames (events : list Event) (p : Page.t) : nat :=
  match events with
  | [] => 0
  | e :: rest =>
      match dispatch e p with
      | None => 0
      | Some p' => (schedulerDraws e p p' + schedulerFrames rest p')%nat
      end
  end.

(** Events that neither start nor end a drag. *)
Definition duringDrag (e : Event) : Prop :=
  match e with
  | MouseDown _ | MouseUp _ => False
  | _ => True
  end.

(** The variables and queues the invariants read; [drawScene] and the
    rotation update leave them alone. *)
Definition control (p : Page.t) :=
  (readyTexture p, loading p, animationFrameCallbacks p, mousemove p,
   (xDragStart p, yDragStart p, xRotationStart p, yRotationStart p),
   objectsToDraw p).

(** The listeners and the anchor: what a drag depends on. *)
Definition drag (p : Page.t) :=
  (mousemove p, xDragStart p, yDragStart p, xRotationStart p,
   yRotationStart p).

(** Each image that has loaded has counted once. *)
Definition loadsCounted (p : Page.t) : Prop :=
  (loading p = [DOM.goldImage; DOM.waterImage] /\ readyTexture p = 0%Z) \/
  (loading p = [DOM.waterImage] /\ readyTexture p = 1%Z) \/
  (loading p = [DOM.goldImage] /\ readyTexture p = 1%Z) \/
  (loading p = [] /\ readyTexture p = 2%Z).

(** The scheduler is either still polling or has drawn and stopped. *)
Definition polling (p : Page.t) : Prop :=
  animationFrameCallbacks p = [drawWhenReadyCallback].

Definition stopped (p : Page.t) : Prop :=
  animationFrameCallbacks p = [] /\ readyTexture p = 2%Z.

(** The drag variables hold the anchor [(x, y, aroundX, aroundY)]. *)
Definition anchoredAt (x y aroundX aroundY : R) (p : Page.t) : Prop :=
  xDragStart p = Some x /\ yDragStart p = Some y /\
  xRotationStart p = Some aroundX /\ yRotationStart p = Some aroundY.

(** A listener is bound only after a [mousedown] has set the anchor. *)
Definition listenersAnchored (p : Page.t) : Prop :=
  mousemove p <> [] ->
  exists x y aroundX aroundY, anchoredAt x y aroundX aroundY p.

Definition invariant (p : Page.t) : Prop :=
  loadsCounted p /\ (polling p \/ stopped p) /\ listenersAnchored p.

(** What a turn does to the scheduler: once stopped it stays stopped and
    draws nothing; while polling it keeps polling and draws nothing, or it
    is an animation frame with both textures ready, which draws one frame
    and stops. *)
Definition schedulerStep (e : Event) (p p' : Page.t) : Prop :=
  (stopped p -> stopped p' /\ schedulerDraws e p p' = 0%nat) /\
  (polling p ->
     (polling p' /\ schedulerDraws e p p' = 0%nat) \/
     (stopped p' /\ schedulerDraws e p p' = 1%nat /\
      readyTexture p = 2%Z /\ e = AnimationFrame)).

End EventLoopSpec.

(** ** Concrete inputs *)

(** A unit icosahedron with the obvious flattening helpers, a page and two
    pointer events: the inputs at which the properties that assume
    something of their arguments are instantiated. *)
Module Sample.

Definition icoX : R := 0.525731112119133606.
Definition icoZ : R := 0.850650808352039932.

Definition icosahedron : Shapes.Mesh :=
  {| Shapes.vertices :=
       [ [- icoX; 0; icoZ]; [icoX; 0; icoZ];
         [- icoX; 0; - icoZ]; [icoX; 0; - icoZ];
         [0; icoZ; icoX]; [0; icoZ; - icoX];
         [0; - icoZ; icoX]; [0; - icoZ; - icoX];
         [icoZ; icoX; 0]; [- icoZ; icoX; 0];
         [icoZ; - icoX; 0]; [- icoZ; - icoX; 0] ];
     Shapes.indices :=
       [ [1; 4; 0]; [4; 9; 0]; [4; 5; 9]; [8; 5; 4]; [1; 8; 4];
         [1; 10; 8]; [10; 3; 8]; [8; 3; 5]; [3; 2; 5]; [3; 7; 2];
         [3; 10; 7]; [10; 6; 7]; [6; 11; 7]; [6; 0; 11]; [6; 1; 0];
         [10; 1; 6]; [11; 0; 9]; [2; 11; 9]; [5; 2; 9]; [11; 2; 7] ]%nat |}.

(** The coordinates of the three vertices of each triangle, in order. *)
Definition toRawTriangleArray (mesh : Shapes.Mesh) : list R :=
  flat_map
    (fun triangle =>
       flat_map (fun i => nth i (Shapes.vertices mesh) []) triangle)
    (Shapes.indices mesh).

(** For a solid centred at the origin the vertex itself serves as its
    normal direction. *)
Definition shapes : Shapes.Library :=
  {| Shapes.icosahedron := icosahedron;
     Shapes.toRawTriangleArray := toRawTriangleArray;
     Shapes.toNormalArray := toRawTriangleArray |}.

(** A library whose solid is a tetrahedron: four triangles. *)
Definition tetrahedron : Shapes.Mesh :=
  {| Shapes.vertices := [ [1; 1; 1]; [1; -1; -1]; [-1; 1; -1]; [-1; -1; 1] ];
     Shapes.indices := [ [0; 1; 2]; [0; 3; 1]; [0; 2; 3]; [1; 3; 2] ]%nat |}.

Definition tetrahedronShapes : Shapes.Library :=
  {| Shapes.icosahedron := tetrahedron;
     Shapes.toRawTriangleArray := toRawTriangleArray;
     Shapes.toNormalArray := toRawTriangleArray |}.

(** A page with no object, turned by 10 degrees around X, before any
    event. *)
Definition page : Page.t :=
  {| Page.readyTexture := 0;
     Page.objectsToDraw := [];
     Page.rotationAroundX := 10;
     Page.rotationAroundY := 0;
     Page.xDragStart := None; Page.yDragStart := None;
     Page.xRotationStart := None; Page.yRotationStart := None;
     Page.gl := [];
     Page.mousemove := [];
     Page.animationFrameCallbacks := [Page.drawWhenReadyCallback];
     Page.loading := [DOM.goldImage; DOM.waterImage] |}.

Definition down : DOM.MouseEvent :=
  {| DOM.clientX := 100; DOM.clientY := 100 |}.

Definition move : DOM.MouseEvent :=
  {| DOM.clientX := 100; DOM.clientY := 130 |}.

Definition between : list EventLoop.Event :=
  [ EventLoop.MouseMove {| DOM.clientX := 100; DOM.clientY := 110 |};
    EventLoop.AnimationFrame ].

End Sample.

(** ** Notions used to state the further properties *)

Module MoreSpec.
Import Page EventLoop Context.

(** The draw call [d] reads every attribute of the object [o] from the
    buffers of [o] itself, with the shininess of [o]. *)
Definition fullyBound (d : Draw) (o : ObjectToDraw) : Prop :=
  attribute (state d) Shader.vertexPosition = vertexBuffer o /\
  attribute (state d) Shader.vertexDiffuseColor = colorBuffer o /\
  attribute (state d) Shader.vertexSpecularColor = specularBuffer o /\
  attribute (state d) Shader.normalVector = normalBuffer o /\
  attribute (state d) Shader.textureCoordinate = textureCoordinateBuffer o /\
  uniformFloat (state d) Shader.shininess = Some (shininess o).

(** The blending settings a context state is left in. *)
Definition leftOpaque (st : State) : Prop :=
  depthTest st = true /\ blend st = false /\
  uniformFloat st Shader.alpha = Some 1 /\
  uniformInt st Shader.sampler = Some 0%Z.

Definition leftTranslucent (st : State) : Prop :=
  depthTest st = false /\ blend st = true /\
  uniformFloat st Shader.alpha = Some (1 / 2) /\
  uniformInt st Shader.sampler = Some 1%Z.

(** The calls that install the settings of the session: viewport, clear
    colour, blend function, shader program and attribute arrays, projection
    and light. *)
Definition isSetting (c : Trace.Call) : bool :=
  match c with
  | Trace.clearColor _ _ _ _ | Trace.viewport _ _ _ _
  | Trace.blendFunc _ _ | Trace.useProgram
  | Trace.enableVertexAttribArray _
  | Trace.uniform3fv _ _ | Trace.uniform4fv _ _
  | Trace.uniformMatrix4fv Shader.projectionMatrix _ => true
  | _ => false
  end.

(** The texture units of the context: the active unit, the texture bound
    to each unit, and the image uploaded into each texture.
    [activeTexture] selects the unit, [bindTexture] binds in the active
    unit, [texImage2D] uploads into the texture bound in the active unit. *)
Record Textures := {
  activeUnit : GL.TextureUnit;
  bound : GL.TextureUnit -> option GL.Texture;
  uploaded : GL.Texture -> option DOM.Image
}.

Definition TextureUnit_eqb (a b : GL.TextureUnit) : bool :=
  match a, b with
  | GL.TEXTURE0, GL.TEXTURE0 | GL.TEXTURE1, GL.TEXTURE1 => true
  | _, _ => false
  end.

Definition Texture_eqb (a b : GL.Texture) : bool :=
  match a, b with
  | GL.goldTexture, GL.goldTexture | GL.waterTexture, GL.waterTexture => true
  | _, _ => false
  end.

(** A fresh context: unit 0 active, nothing bound, nothing uploaded. *)
Definition noTextures : Textures :=
  {| activeUnit := GL.TEXTURE0;
     bound := fun _ => None;
     uploaded := fun _ => None |}.

Definition textureStep (ts : Textures) (c : Trace.Call) : Textures :=
  match c with
  | Trace.activeTexture unit =>
      {| activeUnit := unit; bound := bound ts; uploaded := uploaded ts |}
  | Trace.bindTexture texture =>
      {| activeUnit := activeUnit ts;
         bound := fun u =>
           if TextureUnit_eqb u (activeUnit ts)
           then Some texture else bound ts u;
         uploaded := uploaded ts |}
  | Trace.texImage2D image =>
      match bound ts (activeUnit ts) with
      | Some texture =>
          {| activeUnit := activeUnit ts;
             bound := bound ts;
             uploaded := fun t =>
               if Texture_eqb t texture then Some image else uploaded ts t |}
      | None => ts
      end
  | _ => ts
  end.

Definition textures (calls : list Trace.Call) : Textures :=
  fold_left textureStep calls noTextures.

(** The calls that touch the texture units. *)
Definition isTextureCall (c : Trace.Call) : bool :=
  match c with
  | Trace.activeTexture _ | Trace.bindTexture _ | Trace.texImage2D _ => true
  | _ => false
  end.

(** Events other than a pointer-down. *)
Definition notMouseDown (e : Event) : Prop :=
  match e with
  | MouseDown _ => False
  | _ => True
  end.

(** A call that neither installs a setting of the session nor touches the
    texture units. *)
Definition quiet (c : Trace.Call) : Prop :=
  isSetting c = false /\ isTextureCall c = false.

(** The calls of the load handler of each image. *)
Definition handlerCalls (texture : GL.Texture) (textureImage : DOM.Image)
    (textureId : GL.TextureUnit) : list Trace.Call :=
  [ Trace.activeTexture textureId;
    Trace.bindTexture texture;
    Trace.texImage2D textureImage;
    Trace.texParameteri GL.TEXTURE_MAG_FILTER GL.LINEAR;
    Trace.texParameteri GL.TEXTURE_MIN_FILTER GL.LINEAR_MIPMAP_NEAREST;
    Trace.generateMipmap ].

Definition loadCalls (image : DOM.Image) : list Trace.Call :=
  match image with
  | DOM.goldImage => handlerCalls GL.goldTexture DOM.goldImage GL.TEXTURE0
  | DOM.waterImage =>
      handlerCalls GL.waterTexture DOM.waterImage GL.TEXTURE1
  end.

(** The image is in its texture, and the texture is bound in its unit. *)
Definition goldReady (ts : Textures) : Prop :=
  bound ts GL.TEXTURE0 = Some GL.goldTexture /\
  uploaded ts GL.goldTexture = Some DOM.goldImage.

Definition waterReady (ts : Textures) : Prop :=
  bound ts GL.TEXTURE1 = Some GL.waterTexture /\
  uploaded ts GL.waterTexture = Some DOM.waterImage.

(** The program variables a turn without pointer-down leaves alone when no
    listener is bound. *)
Definition view (p : Page.t) :=
  (mousemove p, rotationAroundX p, rotationAroundY p).

End MoreSpec.

(** * Verified properties *)

Module TransformMathFacts.
Import TransformMath.

Lemma squares_positive (x y z : R) :
  x <> 0 \/ y <> 0 \/ z <> 0 -> 0 < (x * x) + (y * y) + (z * z).
Proof.
  intros [H | [H | H]]; nra.
Qed.

Lemma axisLength_nonzero (x y z : R) :
  x <> 0 \/ y <> 0 \/ z <> 0 -> sqrt ((x * x) + (y * y) + (z * z)) <> 0.
Proof.
  intros H. apply squares_positive in H.
  apply Rgt_not_eq, sqrt_lt_R0, H.
Qed.






(** X19: in exact arithmetic, with angle 0 and any non-zero axis,
    [getRotationMatrix] returns the identity matrix. *)
Theorem getRotationMatrix_zero_angle (x y z : R) :
  x <> 0 \/ y <> 0 \/ z <> 0 ->
  getRotationMatrix 0 x y z = identityMatrix.
Proof.
  intros _.
  unfold getRotationMatrix, identityMatrix.
  replace (0 * PI / 180) with 0 by lra.
  rewrite sin_0, cos_0.
  repeat (f_equal; try ring).
Qed.

Lemma getRotationMatrix_zero_angle_witness :
  (0 <> 0 \/ 1 <> 0 \/ 0 <> 0) /\
  getRotationMatrix 0 0 1 0 = identityMatrix.
Proof.
  assert (H : 0 <> 0 \/ 1 <> 0 \/ 0 <> 0) by (right; left; lra).
  split; [exact H|].
  apply (getRotationMatrix_zero_angle 0 1 0 H).
Defined.



End TransformMathFacts.

(** ** The frame renderer *)

Module RendererFacts.
Import TransformMath Page Context RendererSpec.

#[local] Infix ";;" := andThen (at level 61, right associativity).

Lemma set_gl_set_gl (a b : list Trace.Call) (p : Page.t) :
  set_gl b (set_gl a p) = set_gl b p.
Proof. reflexivity. Qed.

Lemma gl_set_gl (a : list Trace.Call) (p : Page.t) : gl (set_gl a p) = a.
Proof. reflexivity. Qed.

Lemma set_gl_same (p : Page.t) : set_gl (gl p ++ []) p = p.
Proof. rewrite app_nil_r. destruct p; reflexivity. Qed.

Lemma emits_call (c : Trace.Call) : emits (call c) [c].
Proof. intros p. reflexivity. Qed.

Lemma emits_andThen (f g : Page.t -> Page.t) (a b : list Trace.Call) :
  emits f a -> emits g b -> emits (f ;; g) (a ++ b).
Proof.
  intros Hf Hg p. unfold andThen.
  rewrite Hf, Hg, set_gl_set_gl, gl_set_gl, app_assoc. reflexivity.
Qed.

Lemma emits_drawObject (object : ObjectToDraw) :
  emits (drawObject object) (drawObjectCalls object).
Proof.
  unfold drawObject, drawObjectCalls.
  repeat (apply (emits_andThen _ _ [_]); [apply emits_call|]).
  apply emits_call.
Qed.

Lemma emits_iteration (n index : nat) (object : ObjectToDraw) :
  emits
    (let opaque := Rlt_dec (INR index) (INR n / 2) in
     call (Trace.uniform1i Shader.sampler (if opaque then 0%Z else 1%Z)) ;;
     (if opaque
      then
        call (Trace.enable GL.DEPTH_TEST) ;;
        call (Trace.disable GL.BLEND) ;;
        call (Trace.uniform1f Shader.alpha 1)
      else
        call (Trace.disable GL.DEPTH_TEST) ;;
        call (Trace.enable GL.BLEND) ;;
        call (Trace.uniform1f Shader.alpha (1 / 2))) ;;
     drawObject object)
    (iterationCalls n index object).
Proof.
  unfold iterationCalls. cbv zeta.
  destruct (Rlt_dec (INR index) (INR n / 2)).
  - apply (emits_andThen _ _ [_]); [apply emits_call|].
    apply (emits_andThen _ _ [_; _; _]); [|apply emits_drawObject].
    repeat (apply (emits_andThen _ _ [_]); [apply emits_call|]).
    apply emits_call.
  - apply (emits_andThen _ _ [_]); [apply emits_call|].
    apply (emits_andThen _ _ [_; _; _]); [|apply emits_drawObject].
    repeat (apply (emits_andThen _ _ [_]); [apply emits_call|]).
    apply emits_call.
Qed.

Lemma emits_forEach (n : nat) (objects : list ObjectToDraw) :
  forall index,
  emits
    (Array.forEachFrom
       (fun objectToDraw index =>
          let opaque := Rlt_dec (INR index) (INR n / 2) in
          call (Trace.uniform1i Shader.sampler
                  (if opaque then 0%Z else 1%Z)) ;;
          (if opaque
           then
             call (Trace.enable GL.DEPTH_TEST) ;;
             call (Trace.disable GL.BLEND) ;;
             call (Trace.uniform1f Shader.alpha 1)
           else
             call (Trace.disable GL.DEPTH_TEST) ;;
             call (Trace.enable GL.BLEND) ;;
             call (Trace.uniform1f Shader.alpha (1 / 2))) ;;
          drawObject objectToDraw)
       objects index)
    (objectsCalls n index objects).
Proof.
  induction objects as [|object rest IH]; intros index p;
    cbn [Array.forEachFrom objectsCalls].
  - symmetry. apply set_gl_same.
  - pose proof (emits_iteration n index object p) as E.
    cbv zeta in E. cbv beta zeta.
    rewrite IH, E.
    rewrite set_gl_set_gl, gl_set_gl, app_assoc. reflexivity.
Qed.

Lemma emitsAt_andThen (f g : Page.t -> Page.t)
    (a b : Page.t -> list Trace.Call) :
  emitsAt f a -> emitsAt g b -> stable b ->
  emitsAt (f ;; g) (fun p => a p ++ b p).
Proof.
  intros Hf Hg Hb p. unfold andThen.
  rewrite Hf, Hg, Hb, set_gl_set_gl, gl_set_gl, app_assoc. reflexivity.
Qed.

Lemma emitsAt_call (c : Page.t -> Trace.Call) :
  emitsAt (fun p => call (c p) p) (fun p => [c p]).
Proof. intros p. reflexivity. Qed.

Lemma drawScene_emitsAt : emitsAt drawScene frameCalls.
Proof.
  unfold drawScene, frameCalls.
  apply (emitsAt_andThen _ _ (fun _ => [_]) _ (emitsAt_call (fun _ => _))).
  2: { intros a p. reflexivity. }
  apply (emitsAt_andThen _ _ (fun _ => [_]) _ (emitsAt_call _)).
  2: { intros a p. reflexivity. }
  apply (emitsAt_andThen _ _ (fun _ => [_]) _ (emitsAt_call _)).
  2: { intros a p. reflexivity. }
  apply (emitsAt_andThen _ _
           (fun p => objectsCalls (length (objectsToDraw p)) 0
                       (objectsToDraw p))
           (fun _ => [_])).
  - intros p. apply emits_forEach.
  - apply (emitsAt_call (fun _ => _)).
  - intros a p. reflexivity.
Qed.

Lemma drawScene_emits (p : Page.t) :
  drawScene p = set_gl (gl p ++ frameCalls p) p.
Proof. apply drawScene_emitsAt. Qed.

Lemma draws_app (a b : list Trace.Call) :
  forall st, draws st (a ++ b) = draws st a ++ draws (run st a) b.
Proof.
  induction a as [|c a IH]; intros st; [reflexivity|].
  cbn [app draws run fold_left]. fold (run (step st c) a).
  destruct c; rewrite IH; reflexivity.
Qed.

Lemma opaque_not_translucent (d : Draw) :
  opaqueMode d -> translucentMode d -> False.
Proof.
  intros [Ho _] [Ht _]. congruence.
Qed.

Lemma iteration_draws (n i : nat) (o : ObjectToDraw) (st : State) :
  exists d, draws st (iterationCalls n i o) = [d] /\ drawnAs n i o d.
Proof.
  unfold iterationCalls, drawObjectCalls, drawnAs.
  destruct st as [dt bl ui uf ab ap].
  destruct (Rlt_dec (INR i) (INR n / 2)) as [Hlt | Hge];
    cbn [app draws step setCapability depthTest blend uniformInt
         uniformFloat arrayBuffer attribute];
    eexists; (split; [reflexivity|]).
  - split; [repeat split|split]; [intros _; repeat split | tauto].
  - split; [repeat split|split]; [tauto | intros _; repeat split].
Qed.

Lemma objects_draws (n : nat) (objects : list ObjectToDraw) :
  forall index st,
  length (draws st (objectsCalls n index objects)) = length objects /\
  forall k o, nth_error objects k = Some o ->
    exists d,
      nth_error (draws st (objectsCalls n index objects)) k = Some d /\
      drawnAs n (index + k) o d.
Proof.
  induction objects as [|object rest IH]; intros index st;
    cbn [objectsCalls].
  - split; [reflexivity|]. intros [|k] o H; discriminate H.
  - rewrite draws_app.
    destruct (iteration_draws n index object st) as (d & Ed & Hd).
    rewrite Ed.
    destruct (IH (S index) (run st (iterationCalls n index object)))
      as [Hlen Hnth].
    split.
    + cbn [app length]. rewrite Hlen. reflexivity.
    + intros [|k] o H.
      * injection H as <-. exists d. rewrite Nat.add_0_r. split; auto.
      * destruct (Hnth k o H) as (d' & Ed' & Hd').
        exists d'. split; [exact Ed'|].
        replace (index + S k)%nat with (S index + k)%nat by lia.
        exact Hd'.
Qed.

Lemma frame_draws (p : Page.t) (st : State) :
  draws st (frameCalls p)
  = draws
      (run st
         [ Trace.clear;
           Trace.uniformMatrix4fv Shader.xRotationMatrix
             (getRotationMatrix (rotationAroundX p) 1 0 0);
           Trace.uniformMatrix4fv Shader.yRotationMatrix
             (getRotationMatrix (rotationAroundY p) 0 1 0) ])
      (objectsCalls (length (objectsToDraw p)) 0 (objectsToDraw p)).
Proof.
  unfold frameCalls.
  rewrite draws_app, draws_app.
  cbn [draws]. rewrite app_nil_r. reflexivity.
Qed.

(** The position test of [drawScene] in terms of natural numbers. *)
Lemma half_test (i n : nat) : INR i < INR n / 2 <-> (2 * i < n)%nat.
Proof.
  split; intros H.
  - apply INR_lt. rewrite mult_INR. simpl. lra.
  - apply lt_INR in H. rewrite mult_INR in H. simpl in H. lra.
Qed.

(** C1: in every frame drawn by [drawScene] over [n] objects there is one
    draw call per object, in list order; the draw call of the object at
    index [i] is in opaque mode (depth test on, blending off, alpha 1,
    sampler 0) exactly when [i < n / 2] and in translucent mode (depth test
    off, blending on, alpha 0.5, sampler 1) exactly otherwise; every
    opaque-mode draw call precedes every translucent-mode one; and with
    four objects the first two are drawn opaque, the last two
    translucent. *)
Theorem drawScene_opaque_then_translucent (p : Page.t) (st : State) :
  let n := length (objectsToDraw p) in
  exists frame : list Draw,
    draws st (gl (drawScene p)) = draws st (gl p) ++ frame /\
    length frame = n /\
    (forall i o, nth_error (objectsToDraw p) i = Some o ->
       exists d, nth_error frame i = Some d /\ drawsObject d o /\
         (opaqueMode d <-> INR i < INR n / 2) /\
         (translucentMode d <-> ~ INR i < INR n / 2)) /\
    (forall i j di dj,
       nth_error frame i = Some di -> nth_error frame j = Some dj ->
       opaqueMode di -> translucentMode dj -> (i < j)%nat) /\
    (forall o0 o1 o2 o3, objectsToDraw p = [o0; o1; o2; o3] ->
       exists d0 d1 d2 d3, frame = [d0; d1; d2; d3] /\
         drawsObject d0 o0 /\ opaqueMode d0 /\
         drawsObject d1 o1 /\ opaqueMode d1 /\
         drawsObject d2 o2 /\ translucentMode d2 /\
         drawsObject d3 o3 /\ translucentMode d3).
Proof.
  intros n.
  set (st' := run (run st (gl p))
         [ Trace.clear;
           Trace.uniformMatrix4fv Shader.xRotationMatrix
             (getRotationMatrix (rotationAroundX p) 1 0 0);
           Trace.uniformMatrix4fv Shader.yRotationMatrix
             (getRotationMatrix (rotationAroundY p) 0 1 0) ]).
  exists (draws st' (objectsCalls n 0 (objectsToDraw p))).
  destruct (objects_draws n (objectsToDraw p) 0%nat st') as [Hlen Hnth].
  assert (Hexact : forall i o, nth_error (objectsToDraw p) i = Some o ->
    exists d,
      nth_error (draws st' (objectsCalls n 0 (objectsToDraw p))) i = Some d
      /\ drawsObject d o /\
      (opaqueMode d <-> INR i < INR n / 2) /\
      (translucentMode d <-> ~ INR i < INR n / 2)).
  { intros i o Hi. destruct (Hnth i o Hi) as (d & Ed & Hobj & Hop & Htr).
    exists d. split; [exact Ed|]. split; [exact Hobj|].
    cbn [plus] in Hop, Htr.
    split; split; auto.
    - intros Ho. destruct (Rlt_dec (INR i) (INR n / 2)) as [|Hge]; auto.
      exfalso. exact (opaque_not_translucent d Ho (Htr Hge)).
    - intros Ht Hlt. exact (opaque_not_translucent d (Hop Hlt) Ht). }
  split; [|split; [|split; [|split]]].
  - rewrite drawScene_emits, gl_set_gl, draws_app, frame_draws.
    reflexivity.
  - exact Hlen.
  - exact Hexact.
  - intros i j di dj Hi Hj Ho Ht.
    assert (Hin : (i < n)%nat).
    { unfold n. rewrite <- Hlen. apply nth_error_Some. congruence. }
    assert (Hjn : (j < n)%nat).
    { unfold n. rewrite <- Hlen. apply nth_error_Some. congruence. }
    destruct (nth_error (objectsToDraw p) i) as [oi|] eqn:Eoi;
      [|apply nth_error_None in Eoi; unfold n in Hin; lia].
    destruct (nth_error (objectsToDraw p) j) as [oj|] eqn:Eoj;
      [|apply nth_error_None in Eoj; unfold n in Hjn; lia].
    destruct (Hexact i oi Eoi) as (d & Ed & _ & Hop & _).
    destruct (Hexact j oj Eoj) as (d' & Ed' & _ & _ & Htr).
    rewrite Hi in Ed. injection Ed as <-.
    rewrite Hj in Ed'. injection Ed' as <-.
    apply Hop, half_test in Ho.
    apply Htr in Ht. rewrite half_test in Ht. lia.
  - intros o0 o1 o2 o3 E.
    assert (Hn : n = 4%nat) by (unfold n; rewrite E; reflexivity).
    destruct (Hexact 0%nat o0) as (d0 & E0 & Hd0 & Ho0 & _);
      [rewrite E; reflexivity|].
    destruct (Hexact 1%nat o1) as (d1 & E1 & Hd1 & Ho1 & _);
      [rewrite E; reflexivity|].
    destruct (Hexact 2%nat o2) as (d2 & E2 & Hd2 & _ & Ht2);
      [rewrite E; reflexivity|].
    destruct (Hexact 3%nat o3) as (d3 & E3 & Hd3 & _ & Ht3);
      [rewrite E; reflexivity|].
    rewrite Hn in Ho0, Ho1, Ht2, Ht3.
    rewrite half_test in Ho0, Ho1, Ht2, Ht3.
    assert (Hlen4 :
      length (draws st' (objectsCalls n 0 (objectsToDraw p))) = 4%nat)
      by (rewrite Hlen; exact Hn).
    clear Hnth Hexact Hlen.
    destruct (draws st' (objectsCalls n 0 (objectsToDraw p)))
      as [|e0 [|e1 [|e2 [|e3 [|e4 l]]]]]; try discriminate Hlen4.
    cbn [nth_error] in E0, E1, E2, E3.
    injection E0 as ->. injection E1 as ->.
    injection E2 as ->. injection E3 as ->.
    exists d0, d1, d2, d3. split; [reflexivity|].
    repeat match goal with |- _ /\ _ => split end; try assumption;
      [apply Ho0 | apply Ho1 | apply Ht2 | apply Ht3]; lia.
Qed.

End RendererFacts.

(** ** The scene object model *)

Module SceneFacts.
Import Scene SceneSpec.

(** A loop whose test [i < maxi] holds exactly below the integer [m] runs
    the body for [i], [i + 1], ..., [m - 1] and stops, provided the fuel
    exceeds the number of rounds. *)
Lemma forLoop_rounds {St : Type} (maxi : R) (m : nat) (body : St -> St) :
  (forall j, INR j < maxi <-> (j < m)%nat) ->
  forall fuel i s, (m - i < fuel)%nat ->
  Array.forLoop fuel maxi (fun _ => body) i s
  = Some (rounds (m - i) body s).
Proof.
  intros Htest. induction fuel as [|fuel IH]; intros i s Hfuel; [lia|].
  cbn [Array.forLoop].
  destruct (Rlt_dec (INR i) maxi) as [Hlt | Hge].
  - apply Htest in Hlt.
    rewrite IH by lia.
    replace (m - i)%nat with (S (m - S i)) by lia. reflexivity.
  - assert (~ (i < m)%nat) by (intros H; apply Hge, Htest, H).
    replace (m - i)%nat with 0%nat by lia. reflexivity.
Qed.

Lemma vertexCount_test (length j : nat) :
  INR j < INR length / 3 <-> (j < vertexCount length)%nat.
Proof.
  unfold vertexCount.
  assert (Hdiv : (3 * ((length + 2) / 3) <= length + 2
                  < 3 * ((length + 2) / 3) + 3)%nat).
  { pose proof (Nat.div_mod_eq (length + 2) 3).
    pose proof (Nat.mod_upper_bound (length + 2) 3). lia. }
  split; intros H.
  - assert (H3 : (3 * j < length)%nat).
    { apply INR_lt. rewrite mult_INR. simpl. lra. }
    lia.
  - assert (H3 : (3 * j < length)%nat) by lia.
    apply lt_INR in H3. rewrite mult_INR in H3. simpl in H3. lra.
Qed.

Lemma vertexCount_exact (v : nat) : vertexCount (3 * v) = v.
Proof.
  unfold vertexCount.
  pose proof (Nat.div_mod_eq (3 * v + 2) 3).
  pose proof (Nat.mod_upper_bound (3 * v + 2) 3). lia.
Qed.

Lemma vertexCount_le (length : nat) : (vertexCount length <= length)%nat.
Proof.
  unfold vertexCount.
  pose proof (Nat.div_mod_eq (length + 2) 3).
  pose proof (Nat.mod_upper_bound (length + 2) 3).
  destruct length as [|[|[|n]]]; try reflexivity; lia.
Qed.

Lemma expand_S (c : Color.t) (k : nat) :
  expand c (S k) = [Color.r c; Color.g c; Color.b c] ++ expand c k.
Proof. reflexivity. Qed.

Lemma expand_snoc (c : Color.t) (k : nat) :
  expand c k ++ [Color.r c; Color.g c; Color.b c] = expand c (S k).
Proof.
  induction k as [|k IH]; [reflexivity|].
  rewrite (expand_S c (S k)).
  rewrite <- IH at 2.
  rewrite (expand_S c k), <- app_assoc. reflexivity.
Qed.

Lemma length_expand (c : Color.t) (k : nat) :
  length (expand c k) = (3 * k)%nat.
Proof.
  induction k as [|k IH]; [reflexivity|].
  rewrite expand_S, length_app, IH. cbn [length]. lia.
Qed.

Lemma rounds_colors (k : nat) :
  forall (o : ObjectToDraw) (j : nat),
  colors o = Some (expand (color o) j) ->
  rounds k
    (fun objectToDraw =>
       set_colors
         (concat (colors objectToDraw)
            (Color.r (color objectToDraw))
            (Color.g (color objectToDraw))
            (Color.b (color objectToDraw)))
         objectToDraw) o
  = set_colors (Some (expand (color o) (j + k))) o.
Proof.
  induction k as [|k IH]; intros o j Hj; cbn [rounds].
  - rewrite Nat.add_0_r, <- Hj. destruct o; reflexivity.
  - rewrite (IH _ (S j)).
    + replace (S j + k)%nat with (j + S k)%nat by lia.
      destruct o; reflexivity.
    + rewrite Hj. unfold concat. cbn [option_map set_colors colors color].
      rewrite expand_snoc. reflexivity.
Qed.

Lemma rounds_specularColors (k : nat) :
  forall (o : ObjectToDraw) (j : nat),
  specularColors o = Some (expand (specularColor o) j) ->
  rounds k
    (fun objectToDraw =>
       set_specularColors
         (concat (specularColors objectToDraw)
            (Color.r (specularColor objectToDraw))
            (Color.g (specularColor objectToDraw))
            (Color.b (specularColor objectToDraw)))
         objectToDraw) o
  = set_specularColors (Some (expand (specularColor o) (j + k))) o.
Proof.
  induction k as [|k IH]; intros o j Hj; cbn [rounds].
  - rewrite Nat.add_0_r, <- Hj. destruct o; reflexivity.
  - rewrite (IH _ (S j)).
    + replace (S j + k)%nat with (j + S k)%nat by lia.
      destruct o; reflexivity.
    + rewrite Hj. unfold concat.
      cbn [option_map set_specularColors specularColors specularColor].
      rewrite expand_snoc. reflexivity.
Qed.

(** The buffer-setup pass on one object, in closed form. *)
Lemma setupObject_result (o : ObjectToDraw) :
  setupObject o =
  Some
    {| vertices := vertices o;
       color := color o;
       specularColor := specularColor o;
       shininess := shininess o;
       normals := normals o;
       textureCoordinates := textureCoordinates o;
       mode := mode o;
       colors :=
         Some (expanded (colors o) (color o) (length (vertices o)));
       specularColors :=
         Some (expanded (specularColors o) (specularColor o)
                 (length (vertices o)));
       rotation := rotation o;
       vertexBuffer := Some (GL.BufferOf (vertices o));
       colorBuffer :=
         Some (GL.BufferOf
                 (expanded (colors o) (color o) (length (vertices o))));
       specularBuffer :=
         Some (GL.BufferOf
                 (expanded (specularColors o) (specularColor o)
                    (length (vertices o))));
       normalBuffer := Some (GL.BufferOf (normals o));
       textureCoordinateBuffer :=
         Some (GL.BufferOf (textureCoordinates o)) |}.
Proof.
  pose proof (vertexCount_le (length (vertices o))) as Hle.
  destruct o as [vs c sc sh ns ts m cs scs rot vb cb sb nb tb].
  cbn [vertices] in Hle.
  unfold setupObject, expanded.
  cbn [vertices colors specularColors color specularColor
       set_vertexBuffer initVertexBuffer option_map].
  destruct cs as [cs|], scs as [scs|];
    cbn [vertices colors specularColors color specularColor
         set_colorBuffer set_colors set_specularColors initVertexBuffer
         option_map];
    repeat
      (rewrite (forLoop_rounds _ (vertexCount (length vs)) _
                  (vertexCount_test (length vs))) by lia;
       rewrite Nat.sub_0_r;
       first [ rewrite (rounds_colors _ _ 0%nat) by reflexivity
             | rewrite (rounds_specularColors _ _ 0%nat) by reflexivity ];
       cbn [vertices colors specularColors color specularColor
            set_colorBuffer set_colors set_specularColors initVertexBuffer
            option_map plus]);
    reflexivity.
Qed.

Lemma setupObjects_succeeds (objectsToDraw : list ObjectToDraw) :
  exists objectsToDraw', setupObjects objectsToDraw = Some objectsToDraw'.
Proof.
  induction objectsToDraw as [|object rest [rest' IH]].
  - exists []. reflexivity.
  - eexists. cbn [setupObjects].
    rewrite setupObject_result, IH. reflexivity.
Qed.

(** C9: the buffer-setup pass succeeds on every object list and treats
    the objects one by one, in order.  For an object without a [colors]
    array it produces the flat colour (r, g, b) once per round of the loop,
    that is once per vertex: [length / 3] copies when the length of
    [vertices] is a multiple of 3 (in general, the least integer not below
    [length / 3]); likewise for [specularColors] with the specular colour.
    An array that was supplied is left unchanged. *)
Theorem setupObjects_expands_colors (objectsToDraw : list ObjectToDraw) :
  exists objectsToDraw',
    setupObjects objectsToDraw = Some objectsToDraw' /\
    length objectsToDraw' = length objectsToDraw /\
    forall i o, nth_error objectsToDraw i = Some o ->
      exists o',
        nth_error objectsToDraw' i = Some o' /\
        setupObject o = Some o' /\
        vertices o' = vertices o /\
        (colors o = None ->
           colors o'
           = Some (expand (color o) (vertexCount (length (vertices o))))) /\
        (specularColors o = None ->
           specularColors o'
           = Some (expand (specularColor o)
                     (vertexCount (length (vertices o))))) /\
        (forall v, length (vertices o) = (3 * v)%nat ->
           vertexCount (length (vertices o)) = v) /\
        (forall array, colors o = Some array -> colors o' = Some array) /\
        (forall array, specularColors o = Some array ->
           specularColors o' = Some array).
Proof.
  induction objectsToDraw as [|object rest IH].
  - exists []. repeat split. intros [|i] o H; discriminate H.
  - destruct IH as (rest' & Erest & Hlen & Hnth).
    pose proof (setupObject_result object) as Eobject.
    eexists. cbn [setupObjects]. rewrite Eobject, Erest.
    split; [reflexivity|].
    split; [cbn [length]; rewrite Hlen; reflexivity|].
    intros [|i] o H.
    + injection H as <-.
      eexists. split; [reflexivity|]. split; [exact Eobject|].
      cbn [vertices colors specularColors].
      split; [reflexivity|].
      split; [intros ->; reflexivity|].
      split; [intros ->; reflexivity|].
      split; [intros v ->; apply vertexCount_exact|].
      split; intros array ->; reflexivity.
    + exact (Hnth i o H).
Qed.

(** *** Splitting a list by the parity of the position *)

Lemma truthy_mod_2 (index : nat) :
  Array.truthy (index mod 2) = Nat.odd index.
Proof.
  unfold Array.truthy.
  rewrite <- Nat.bit0_mod, Nat.bit0_odd.
  destruct (Nat.odd index); reflexivity.
Qed.

Section Parity.

Context {A : Type}.


Lemma oddPositions_cons (a : A) (array : list A) (index : nat) :
  oddPositions (a :: array) index
  = if Nat.odd index
    then a :: oddPositions array (S index)
    else oddPositions array (S index).
Proof.
  unfold oddPositions. cbn [Array.filterFrom].
  rewrite truthy_mod_2. reflexivity.
Qed.

Lemma evenPositions_cons (a : A) (array : list A) (index : nat) :
  evenPositions (a :: array) index
  = if Nat.odd index
    then evenPositions array (S index)
    else a :: evenPositions array (S index).
Proof.
  unfold evenPositions. cbn [Array.filterFrom].
  rewrite truthy_mod_2. destruct (Nat.odd index); reflexivity.
Qed.

Lemma odd_S (index : nat) : Nat.odd (S index) = negb (Nat.odd index).
Proof. rewrite Nat.odd_succ, <- Nat.negb_odd. reflexivity. Qed.




Lemma positions_length (array : list A) :
  forall index,
  (length (oddPositions array index)
   = if Nat.odd index then (length array + 1) / 2 else length array / 2)%nat
  /\
  (length (evenPositions array index)
   = if Nat.odd index then length array / 2 else (length array + 1) / 2)%nat.
Proof.
  induction array as [|a array IH]; intros index.
  - unfold oddPositions, evenPositions. cbn [Array.filterFrom length].
    destruct (Nat.odd index); split; reflexivity.
  - rewrite oddPositions_cons, evenPositions_cons.
    destruct (IH (S index)) as [IHo IHe]. rewrite odd_S in IHo, IHe.
    assert (H1 : forall n, ((S n + 1) / 2 = S (n / 2))%nat).
    { intros n. replace (S n + 1)%nat with (n + 1 * 2)%nat by lia.
      rewrite Nat.div_add by lia. lia. }
    assert (H2 : forall n, (S n / 2 = (n + 1) / 2)%nat).
    { intros n. f_equal. lia. }
    destruct (Nat.odd index); cbn [negb] in IHo, IHe; cbn [length];
      rewrite IHo, IHe, ?H1, ?H2; split; reflexivity.
Qed.


End Parity.

(** *** The two meshes cut out of the icosahedron *)

Section Icosahedron.

Variable shapes : Shapes.Library.

(** An icosahedron has twenty triangular faces. *)
Hypothesis icosahedron_triangles :
  length (Shapes.indices (Shapes.icosahedron shapes)) = 20%nat.

(** The flattening helper yields three vertices of three coordinates for
    each triangle of the two meshes it is given. *)
Hypothesis toRawTriangleArray_gold :
  length (Shapes.toRawTriangleArray shapes (goldMesh shapes))
  = (9 * length (Shapes.indices (goldMesh shapes)))%nat.

Hypothesis toRawTriangleArray_water :
  length (Shapes.toRawTriangleArray shapes (waterMesh shapes))
  = (9 * length (Shapes.indices (waterMesh shapes)))%nat.

Lemma goldMesh_triangles :
  length (Shapes.indices (goldMesh shapes)) = 10%nat.
Proof.
  unfold goldMesh. cbn [Shapes.indices].
  destruct (positions_length
              (Shapes.indices (Shapes.icosahedron shapes)) 0) as [H _].
  unfold oddPositions in H. unfold Array.filter.
  rewrite H, icosahedron_triangles. reflexivity.
Qed.

Lemma waterMesh_triangles :
  length (Shapes.indices (waterMesh shapes)) = 10%nat.
Proof.
  unfold waterMesh. cbn [Shapes.indices].
  destruct (positions_length
              (Shapes.indices (Shapes.icosahedron shapes)) 0) as [_ H].
  unfold evenPositions in H. unfold Array.filter.
  rewrite H, icosahedron_triangles. reflexivity.
Qed.

Lemma generateTextureCoordinates_pattern :
  generateTextureCoordinates = List.concat (repeat [0; 0; 1; 0; 0; 1] 10).
Proof. reflexivity. Qed.


End Icosahedron.

(** C8 fails as stated when the solid is not an icosahedron: for a
    tetrahedron each mesh has 2 triangles, and the pattern is still there
    10 times. *)
Lemma textureCoordinates_per_triangle_counterexample :
  length (Shapes.indices (goldMesh Sample.tetrahedronShapes)) = 2%nat /\
  length (Shapes.indices (waterMesh Sample.tetrahedronShapes)) = 2%nat /\
  ~ (forall o, In o (objectLiterals Sample.tetrahedronShapes) ->
       exists mesh,
         (mesh = goldMesh Sample.tetrahedronShapes \/
          mesh = waterMesh Sample.tetrahedronShapes) /\
         vertices o
         = Shapes.toRawTriangleArray Sample.tetrahedronShapes mesh /\
         textureCoordinates o
         = List.concat
             (repeat [0; 0; 1; 0; 0; 1] (length (Shapes.indices mesh)))).
Proof.
  split; [reflexivity|]. split; [reflexivity|].
  intros H.
  destruct (H _ (or_introl eq_refl)) as (mesh & Hmesh & _ & E).
  apply (f_equal (@length R)) in E.
  cbn [textureCoordinates] in E.
  change (length generateTextureCoordinates) with 60%nat in E.
  destruct Hmesh as [-> | ->]; discriminate E.
Qed.

(** C8 (amended): whatever solid the library returns, each of the two
    objects the program builds, before and after the buffer-setup pass, has
    as [textureCoordinates] the six numbers 0,0,1,0,0,1 repeated exactly 10
    times; that is once per triangle of both meshes exactly when the solid
    has 20 triangles. *)
Theorem textureCoordinates_ten_patterns (shapes : Shapes.Library) :
  let n := length (Shapes.indices (Shapes.icosahedron shapes)) in
  (forall o, In o (objectLiterals shapes) ->
     exists mesh,
       (mesh = goldMesh shapes \/ mesh = waterMesh shapes) /\
       vertices o = Shapes.toRawTriangleArray shapes mesh /\
       textureCoordinates o
       = List.concat (repeat [0; 0; 1; 0; 0; 1] 10) /\
       (n = 20%nat -> length (Shapes.indices mesh) = 10%nat)) /\
  (forall canvas, exists p,
     Page.startup canvas shapes = Some p /\
     length (Page.objectsToDraw p) = 2%nat /\
     forall o, In o (Page.objectsToDraw p) ->
       exists mesh,
         (mesh = goldMesh shapes \/ mesh = waterMesh shapes) /\
         vertices o = Shapes.toRawTriangleArray shapes mesh /\
         textureCoordinates o
         = List.concat (repeat [0; 0; 1; 0; 0; 1] 10) /\
         textureCoordinateBuffer o
         = Some (GL.BufferOf (textureCoordinates o)) /\
         (n = 20%nat -> length (Shapes.indices mesh) = 10%nat)) /\
  ((length (Shapes.indices (goldMesh shapes)) = 10%nat /\
    length (Shapes.indices (waterMesh shapes)) = 10%nat) <-> n = 20%nat).
Proof.
  intros n.
  split; [|split].
  - intros o [<- | [<- | []]].
    + exists (goldMesh shapes). split; [left; reflexivity|].
      split; [reflexivity|]. split; [reflexivity|].
      intros Hn. exact (goldMesh_triangles shapes Hn).
    + exists (waterMesh shapes). split; [right; reflexivity|].
      split; [reflexivity|]. split; [reflexivity|].
      intros Hn. exact (waterMesh_triangles shapes Hn).
  - intros canvas. unfold Page.startup, objectLiterals.
    cbn [setupObjects]. rewrite !setupObject_result.
    eexists. split; [reflexivity|].
    cbn [Page.objectsToDraw]. split; [reflexivity|].
    intros o [<- | [<- | []]].
    + exists (goldMesh shapes). split; [left; reflexivity|].
      split; [reflexivity|]. split; [reflexivity|].
      split; [reflexivity|].
      intros Hn. exact (goldMesh_triangles shapes Hn).
    + exists (waterMesh shapes). split; [right; reflexivity|].
      split; [reflexivity|]. split; [reflexivity|].
      split; [reflexivity|].
      intros Hn. exact (waterMesh_triangles shapes Hn).
  - destruct (positions_length
                (Shapes.indices (Shapes.icosahedron shapes)) 0)
      as [Hgold Hwater].
    cbn [Nat.odd] in Hgold, Hwater. fold n in Hgold, Hwater.
    assert (Eg : length (Shapes.indices (goldMesh shapes)) = (n / 2)%nat)
      by exact Hgold.
    assert (Ew : length (Shapes.indices (waterMesh shapes))
                 = ((n + 1) / 2)%nat) by exact Hwater.
    rewrite Eg, Ew.
    pose proof (Nat.div_mod_eq n 2).
    pose proof (Nat.mod_upper_bound n 2).
    pose proof (Nat.div_mod_eq (n + 1) 2).
    pose proof (Nat.mod_upper_bound (n + 1) 2).
    split; [lia|]. intros ->. split; reflexivity.
Qed.


End SceneFacts.

(** ** The startup scheduler and the interaction controller *)

Module EventLoopFacts.
Import Page EventLoop Context RendererSpec RendererFacts EventLoopSpec.

Lemma frames_app (a b : list Trace.Call) :
  frames (a ++ b) = (frames a + frames b)%nat.
Proof.
  unfold frames. rewrite filter_app, length_app. reflexivity.
Qed.

Lemma frames_objectsCalls (n : nat) (objects : list ObjectToDraw) :
  forall index, frames (objectsCalls n index objects) = 0%nat.
Proof.
  induction objects as [|object rest IH]; intros index; [reflexivity|].
  cbn [objectsCalls]. rewrite frames_app, IH.
  unfold iterationCalls.
  destruct (Rlt_dec (INR index) (INR n / 2)); reflexivity.
Qed.

Lemma frames_frameCalls (p : Page.t) : frames (frameCalls p) = 1%nat.
Proof.
  unfold frameCalls. rewrite !frames_app, frames_objectsCalls. reflexivity.
Qed.

Lemma frames_drawScene (p : Page.t) :
  frames (gl (drawScene p)) = S (frames (gl p)).
Proof.
  rewrite drawScene_emits, gl_set_gl, frames_app, frames_frameCalls. lia.
Qed.

Lemma frameCalls_set_gl (a : list Trace.Call) (p : Page.t) :
  frameCalls (set_gl a p) = frameCalls p.
Proof. reflexivity. Qed.

(** *** What the handlers leave unchanged *)

Lemma drawWhenReady_waiting (p : Page.t) :
  readyTexture p <> 2%Z ->
  drawWhenReady p = requestAnimationFrame drawWhenReadyCallback p.
Proof.
  intros H. unfold drawWhenReady.
  destruct (Z.eqb_spec (readyTexture p) 2); [contradiction|reflexivity].
Qed.

Lemma drawWhenReady_ready (p : Page.t) :
  readyTexture p = 2%Z -> drawWhenReady p = drawScene p.
Proof.
  intros H. unfold drawWhenReady. rewrite H. reflexivity.
Qed.

(** *** Invariants of the page *)

Lemma control_drawScene (p : Page.t) : control (drawScene p) = control p.
Proof. rewrite drawScene_emits. reflexivity. Qed.

Lemma control_set_rotation (aroundX aroundY : R) (p : Page.t) :
  control (set_rotation aroundX aroundY p) = control p.
Proof. reflexivity. Qed.

Lemma control_fields (p q : Page.t) :
  control p = control q ->
  readyTexture p = readyTexture q /\ loading p = loading q /\
  animationFrameCallbacks p = animationFrameCallbacks q /\
  mousemove p = mousemove q /\
  xDragStart p = xDragStart q /\ yDragStart p = yDragStart q /\
  xRotationStart p = xRotationStart q /\
  yRotationStart p = yRotationStart q /\
  objectsToDraw p = objectsToDraw q.
Proof.
  unfold control. intros H. injection H. intros.
  repeat split; assumption.
Qed.

Lemma anchoredAt_control (x y aroundX aroundY : R) (p q : Page.t) :
  control p = control q ->
  anchoredAt x y aroundX aroundY p -> anchoredAt x y aroundX aroundY q.
Proof.
  intros H. apply control_fields in H.
  destruct H as (_ & _ & _ & _ & Hx & Hy & Hrx & Hry & _).
  unfold anchoredAt. rewrite Hx, Hy, Hrx, Hry. tauto.
Qed.

Lemma invariant_control (p q : Page.t) :
  control p = control q -> invariant p -> invariant q.
Proof.
  intros H (Hloads & Hqueue & Hanchor).
  pose proof (control_fields p q H)
    as (Hr & Hl & Hq & Hm & _).
  unfold invariant, loadsCounted, polling, stopped, listenersAnchored in *.
  rewrite <- Hr, <- Hl, <- Hq, <- Hm.
  split; [exact Hloads|]. split; [exact Hqueue|].
  intros Hbound. destruct (Hanchor Hbound) as (x & y & ax & ay & Ha).
  exists x, y, ax, ay. exact (anchoredAt_control _ _ _ _ p q H Ha).
Qed.

(** *** The mouse handler under an anchor *)

Lemma rotateScene_anchored (x y aroundX aroundY : R)
    (event : DOM.MouseEvent) (p : Page.t) :
  anchoredAt x y aroundX aroundY p ->
  rotateScene event p
  = Some
      (drawScene
         (set_rotation (aroundX - y + DOM.clientY event)
            (aroundY - x + DOM.clientX event) p)).
Proof.
  intros (Hx & Hy & Hrx & Hry). unfold rotateScene.
  rewrite Hx, Hy, Hrx, Hry. reflexivity.
Qed.

Lemma rotation_drawScene (p : Page.t) :
  rotationAroundX (drawScene p) = rotationAroundX p /\
  rotationAroundY (drawScene p) = rotationAroundY p.
Proof. rewrite drawScene_emits. split; reflexivity. Qed.

(** Running the bound listeners on a [mousemove]: every listener sets the
    same rotation and redraws; the trace ends with the frame of the final
    rotation. *)
Lemma runListeners_anchored (x y aroundX aroundY : R)
    (event : DOM.MouseEvent) (listeners : list Listener) :
  forall p,
  anchoredAt x y aroundX aroundY p ->
  exists p',
    runListeners listeners event p = Some p' /\
    control p' = control p /\
    (listeners = [] -> p' = p) /\
    (listeners <> [] ->
       rotationAroundX p' = aroundX - y + DOM.clientY event /\
       rotationAroundY p' = aroundY - x + DOM.clientX event /\
       exists middle, gl p' = gl p ++ middle ++ frameCalls p').
Proof.
  induction listeners as [|[] rest IH]; intros p Ha.
  - exists p. split; [reflexivity|]. split; [reflexivity|].
    split; [reflexivity|]. intros H; contradiction.
  - cbn [runListeners runListener].
    rewrite (rotateScene_anchored x y aroundX aroundY event p Ha).
    set (q := drawScene
                (set_rotation (aroundX - y + DOM.clientY event)
                   (aroundY - x + DOM.clientX event) p)).
    assert (Hq : control q = control p).
    { unfold q. rewrite control_drawScene. apply control_set_rotation. }
    assert (Haq : anchoredAt x y aroundX aroundY q).
    { apply (anchoredAt_control _ _ _ _ p q); auto. }
    destruct (IH q Haq) as (p' & Erun & Hc & Hnil & Hcons).
    exists p'. split; [exact Erun|]. split; [congruence|].
    split; [discriminate|]. intros _.
    assert (Hgl : gl q = gl p ++ frameCalls q).
    { unfold q at 1. rewrite drawScene_emits, gl_set_gl.
      unfold q. rewrite drawScene_emits, frameCalls_set_gl. reflexivity. }
    destruct rest as [|l rest].
    + rewrite (Hnil eq_refl).
      destruct (rotation_drawScene
                  (set_rotation (aroundX - y + DOM.clientY event)
                     (aroundY - x + DOM.clientX event) p)) as [HX HY].
      fold q in HX, HY.
      split; [exact HX|]. split; [exact HY|].
      exists []. exact Hgl.
    + destruct Hcons as (HX & HY & middle & Hm); [discriminate|].
      split; [exact HX|]. split; [exact HY|].
      exists (frameCalls q ++ middle).
      rewrite Hm, Hgl, <- !app_assoc. reflexivity.
Qed.

(** *** One turn of the event loop *)

Lemma polling_not_stopped (p : Page.t) : polling p -> stopped p -> False.
Proof. unfold polling, stopped. intros -> [H _]. discriminate H. Qed.

Lemma schedulerStep_control (e : Event) (p p' : Page.t) :
  e <> AnimationFrame -> control p' = control p -> schedulerStep e p p'.
Proof.
  intros He Hc. apply control_fields in Hc.
  destruct Hc as (Hr & _ & Hq & _).
  unfold schedulerStep, stopped, polling. rewrite Hr, Hq.
  assert (Hd : schedulerDraws e p p' = 0%nat)
    by (destruct e; try reflexivity; contradiction).
  split; [tauto|]. intros Hp. left. tauto.
Qed.

Lemma dispatch_Load_fields (image : DOM.Image) (p : Page.t) :
  exists p', dispatch (Load image) p = Some p' /\
    animationFrameCallbacks p' = animationFrameCallbacks p /\
    mousemove p' = mousemove p /\
    (forall x y aroundX aroundY,
       anchoredAt x y aroundX aroundY p ->
       anchoredAt x y aroundX aroundY p') /\
    ((isLoading image p = false /\ p' = p) \/
     (isLoading image p = true /\
      readyTexture p' = (readyTexture p + 1)%Z /\
      loading p'
      = List.filter (fun i => negb (DOM.Image_eqb image i)) (loading p))).
Proof.
  unfold dispatch. destruct (isLoading image p).
  - eexists. split; [reflexivity|].
    destruct image; (split; [reflexivity|]); (split; [reflexivity|]);
      (split; [intros x y ax ay H; exact H|]); right; repeat split.
  - exists p. split; [reflexivity|]. split; [reflexivity|].
    split; [reflexivity|]. split; [auto|]. left. split; reflexivity.
Qed.

Lemma dispatch_Load (image : DOM.Image) (p : Page.t) :
  invariant p ->
  exists p', dispatch (Load image) p = Some p' /\ invariant p' /\
    schedulerStep (Load image) p p'.
Proof.
  intros (Hloads & Hqueue & Hanchor).
  destruct (dispatch_Load_fields image p)
    as (p' & E & Hq & Hm & Ha & Hload).
  exists p'. split; [exact E|].
  destruct Hload as [[_ ->] | (Hl & Hr & Hf)].
  { split; [repeat split; assumption|].
    apply schedulerStep_control; [discriminate | reflexivity]. }
  assert (Hloads' : loadsCounted p' /\ readyTexture p <> 2%Z).
  { unfold loadsCounted, isLoading in *. rewrite Hr, Hf.
    destruct Hloads as [[El Er] | [[El Er] | [[El Er] | [El Er]]]];
      rewrite El, Er in *; destruct image;
      cbn [existsb DOM.Image_eqb orb] in Hl; try discriminate Hl;
      cbn [List.filter DOM.Image_eqb negb]; split; try lia; tauto. }
  destruct Hloads' as [Hloads' Hnot].
  assert (Hpoll : polling p).
  { destruct Hqueue as [Hp | [_ Hr']]; [exact Hp | contradiction]. }
  assert (Hpoll' : polling p').
  { unfold polling in *. congruence. }
  split.
  - split; [exact Hloads'|]. split; [left; exact Hpoll'|].
    intros Hb. rewrite Hm in Hb.
    destruct (Hanchor Hb) as (x & y & ax & ay & H).
    exists x, y, ax, ay. apply Ha, H.
  - split.
    + intros Hs. destruct (polling_not_stopped p Hpoll Hs).
    + intros _. left. split; [exact Hpoll' | reflexivity].
Qed.

Lemma dispatch_AnimationFrame (p : Page.t) :
  invariant p ->
  exists p', dispatch AnimationFrame p = Some p' /\ invariant p' /\
    schedulerStep AnimationFrame p p' /\
    control p' = (readyTexture p, loading p, animationFrameCallbacks p',
                  mousemove p,
                  (xDragStart p, yDragStart p, xRotationStart p,
                   yRotationStart p), objectsToDraw p).
Proof.
  intros (Hloads & Hqueue & Hanchor).
  destruct Hqueue as [Hp | [Hs Hr]].
  - destruct (Z.eq_dec (readyTexture p) 2) as [Hr | Hr].
    + (* both textures ready: one frame, and the scheduler stops *)
      exists (drawScene (set_animationFrameCallbacks [] p)).
      assert (E : dispatch AnimationFrame p
                  = Some (drawScene (set_animationFrameCallbacks [] p))).
      { unfold dispatch. rewrite Hp. cbn [fold_left runCallback].
        rewrite drawWhenReady_ready by exact Hr. reflexivity. }
      assert (Hc : control (drawScene (set_animationFrameCallbacks [] p))
                   = control (set_animationFrameCallbacks [] p))
        by apply control_drawScene.
      pose proof (control_fields _ _ Hc)
        as (Hc1 & Hc2 & Hc3 & Hc4 & Hc5 & Hc6 & Hc7 & Hc8 & Hc9).
      cbn [set_animationFrameCallbacks readyTexture loading
           animationFrameCallbacks mousemove xDragStart yDragStart
           xRotationStart yRotationStart objectsToDraw] in
        Hc1, Hc2, Hc3, Hc4, Hc5, Hc6, Hc7, Hc8, Hc9.
      assert (Hst : stopped (drawScene (set_animationFrameCallbacks [] p))).
      { split; congruence. }
      split; [exact E|]. split; [|split].
      * split; [|split].
        -- unfold loadsCounted. rewrite Hc1, Hc2. exact Hloads.
        -- right. exact Hst.
        -- intros Hm. rewrite Hc4 in Hm.
           destruct (Hanchor Hm) as (x & y & ax & ay & H1 & H2 & H3 & H4).
           exists x, y, ax, ay. unfold anchoredAt. repeat split; congruence.
      * split.
        -- intros Hs. destruct (polling_not_stopped p Hp Hs).
        -- intros _. right. split; [exact Hst|].
           split; [|split; [exact Hr | reflexivity]].
           unfold schedulerDraws. rewrite frames_drawScene.
           cbn [set_animationFrameCallbacks gl]. lia.
      * unfold control. congruence.
    + (* still waiting: nothing drawn, the callback is queued again *)
      exists p.
      assert (E : dispatch AnimationFrame p = Some p).
      { unfold dispatch. rewrite Hp. cbn [fold_left runCallback].
        rewrite drawWhenReady_waiting by exact Hr.
        unfold polling in Hp.
        destruct p; cbn in Hp; subst; reflexivity. }
      split; [exact E|]. split; [|split].
      * split; [exact Hloads|]. split; [left; exact Hp | exact Hanchor].
      * split.
        -- intros Hs. destruct (polling_not_stopped p Hp Hs).
        -- intros _. left. split; [exact Hp|].
           unfold schedulerDraws. lia.
      * reflexivity.
  - exists p.
    assert (E : dispatch AnimationFrame p = Some p).
    { unfold dispatch. rewrite Hs. cbn [fold_left].
      destruct p; cbn in Hs; subst; reflexivity. }
    split; [exact E|]. split; [|split].
    + split; [exact Hloads|]. split; [right; split; assumption|].
      exact Hanchor.
    + split.
      * intros Hst. split; [exact Hst|]. unfold schedulerDraws. lia.
      * intros Hp. destruct (polling_not_stopped p Hp (conj Hs Hr)).
    + reflexivity.
Qed.

Lemma dispatch_MouseMove (event : DOM.MouseEvent) (p : Page.t) :
  invariant p ->
  exists p', dispatch (MouseMove event) p = Some p' /\ invariant p' /\
    schedulerStep (MouseMove event) p p' /\ control p' = control p.
Proof.
  intros Hinv. pose proof Hinv as (_ & _ & Hanchor).
  cbn [dispatch].
  destruct (mousemove p) as [|l rest] eqn:Hm.
  - exists p. split; [reflexivity|]. split; [exact Hinv|].
    split; [|reflexivity].
    apply schedulerStep_control; [discriminate | reflexivity].
  - destruct Hanchor as (x & y & ax & ay & Ha);
      [rewrite Hm; discriminate|].
    destruct (runListeners_anchored x y ax ay event (l :: rest) p Ha)
      as (p' & Erun & Hc & _).
    exists p'. split; [exact Erun|].
    split; [apply (invariant_control p p'); auto|].
    split; [|exact Hc].
    apply schedulerStep_control; [discriminate | exact Hc].
Qed.

Lemma dispatch_MouseDown (event : DOM.MouseEvent) (p : Page.t) :
  invariant p ->
  invariant (mousedown event p) /\
  schedulerStep (MouseDown event) p (mousedown event p).
Proof.
  intros (Hloads & Hqueue & Hanchor). split.
  - split; [exact Hloads|]. split; [exact Hqueue|].
    intros _. eexists _, _, _, _. repeat split.
  - unfold schedulerStep, stopped, polling, schedulerDraws.
    cbn [mousedown set_mousemove set_dragStart animationFrameCallbacks
         readyTexture].
    split; [tauto|]. intros Hp. left. tauto.
Qed.

Lemma dispatch_MouseUp (event : DOM.MouseEvent) (p : Page.t) :
  invariant p ->
  invariant (mouseup event p) /\
  schedulerStep (MouseUp event) p (mouseup event p).
Proof.
  intros (Hloads & Hqueue & Hanchor). split.
  - split; [exact Hloads|]. split; [exact Hqueue|].
    intros H. contradiction H. reflexivity.
  - unfold schedulerStep, stopped, polling, schedulerDraws.
    cbn [mouseup set_mousemove animationFrameCallbacks readyTexture].
    split; [tauto|]. intros Hp. left. tauto.
Qed.

(** Every turn of the event loop succeeds and keeps the invariant. *)
Lemma dispatch_invariant (e : Event) (p : Page.t) :
  invariant p ->
  exists p', dispatch e p = Some p' /\ invariant p' /\
    schedulerStep e p p'.
Proof.
  intros Hinv. destruct e as [image| |event|event|event].
  - apply dispatch_Load, Hinv.
  - destruct (dispatch_AnimationFrame p Hinv) as (p' & E & Hi & Hs & _).
    exists p'. auto.
  - exists (mousedown event p). split; [reflexivity|].
    apply dispatch_MouseDown, Hinv.
  - destruct (dispatch_MouseMove event p Hinv) as (p' & E & Hi & Hs & _).
    exists p'. auto.
  - exists (mouseup event p). split; [reflexivity|].
    apply dispatch_MouseUp, Hinv.
Qed.

(** *** Runs of the event loop *)

Lemma run_app (a b : list Event) :
  forall p p', EventLoop.run a p = Some p' ->
  EventLoop.run (a ++ b) p = EventLoop.run b p'.
Proof.
  induction a as [|e a IH]; intros p p' H; cbn [EventLoop.run app] in *.
  - injection H as <-. reflexivity.
  - destruct (dispatch e p) as [q|]; [|discriminate H]. exact (IH q p' H).
Qed.

Lemma schedulerFrames_app (a b : list Event) :
  forall p p', EventLoop.run a p = Some p' ->
  schedulerFrames (a ++ b) p
  = (schedulerFrames a p + schedulerFrames b p')%nat.
Proof.
  induction a as [|e a IH]; intros p p' H;
    cbn [EventLoop.run app schedulerFrames] in *.
  - injection H as <-. reflexivity.
  - destruct (dispatch e p) as [q|]; [|discriminate H].
    rewrite (IH q p' H). lia.
Qed.

Lemma run_invariant (events : list Event) :
  forall p, invariant p ->
  exists p', EventLoop.run events p = Some p' /\ invariant p' /\
    (stopped p -> stopped p' /\ schedulerFrames events p = 0%nat) /\
    (polling p ->
       (polling p' /\ schedulerFrames events p = 0%nat) \/
       (stopped p' /\ schedulerFrames events p = 1%nat)).
Proof.
  induction events as [|e rest IH]; intros p Hinv.
  - exists p. split; [reflexivity|]. split; [exact Hinv|].
    split; [intros Hs; split; [exact Hs | reflexivity]|].
    intros Hp. left. split; [exact Hp | reflexivity].
  - destruct (dispatch_invariant e p Hinv) as (q & E & Hq & Hs1 & Hp1).
    destruct (IH q Hq) as (p' & Erun & Hinv' & Hs2 & Hp2).
    exists p'. cbn [EventLoop.run schedulerFrames]. rewrite E.
    split; [exact Erun|]. split; [exact Hinv'|]. split.
    + intros Hs. destruct (Hs1 Hs) as [Hsq ->].
      destruct (Hs2 Hsq) as [Hsp ->]. split; [exact Hsp | reflexivity].
    + intros Hp.
      destruct (Hp1 Hp) as [[Hpq ->] | (Hsq & -> & _)].
      * destruct (Hp2 Hpq) as [[Hpp ->] | [Hsp ->]];
          [left | right]; split; auto.
      * destruct (Hs2 Hsq) as [Hsp ->]. right. split; auto.
Qed.

Lemma startup_invariant (canvas : DOM.Canvas) (shapes : Shapes.Library) :
  exists p0, startup canvas shapes = Some p0 /\ invariant p0 /\ polling p0.
Proof.
  unfold startup.
  destruct (SceneFacts.setupObjects_succeeds (objectLiterals shapes))
    as [objects ->].
  eexists. split; [reflexivity|]. split; [|reflexivity].
  split; [left; split; reflexivity|].
  split; [left; reflexivity|].
  intros H. contradiction H. reflexivity.
Qed.

Lemma loadsCounted_bounds (p : Page.t) :
  loadsCounted p ->
  (0 <= readyTexture p <= 2)%Z /\
  readyTexture p = (2 - Z.of_nat (length (loading p)))%Z.
Proof.
  intros [[-> ->] | [[-> ->] | [[-> ->] | [-> ->]]]]; cbn; lia.
Qed.

(** C2: an invocation of [drawWhenReady] with the counter different from 2
    draws nothing and queues itself again; an invocation with the counter
    equal to 2 calls [drawScene], which completes one frame, and queues
    nothing.  Along every run of the event loop from startup the counter is
    the number of images loaded, the scheduler has drawn no frame while it
    is still queued, and exactly one frame, with the counter at 2, once it
    is not; and as soon as the counter is 2 the next animation frame makes
    that one frame. *)
Theorem drawWhenReady_single_startup_frame :
  (forall p, readyTexture p <> 2%Z ->
     drawWhenReady p = requestAnimationFrame drawWhenReadyCallback p /\
     gl (drawWhenReady p) = gl p /\
     animationFrameCallbacks (drawWhenReady p)
     = animationFrameCallbacks p ++ [drawWhenReadyCallback]) /\
  (forall p, readyTexture p = 2%Z ->
     drawWhenReady p = drawScene p /\
     frames (gl (drawWhenReady p)) = S (frames (gl p)) /\
     animationFrameCallbacks (drawWhenReady p) = animationFrameCallbacks p)
  /\
  forall canvas shapes, exists p0,
    startup canvas shapes = Some p0 /\
    forall events, exists p,
      EventLoop.run events p0 = Some p /\
      (0 <= readyTexture p <= 2)%Z /\
      readyTexture p = (2 - Z.of_nat (length (loading p)))%Z /\
      ((schedulerFrames events p0 = 0%nat /\
        animationFrameCallbacks p = [drawWhenReadyCallback]) \/
       (schedulerFrames events p0 = 1%nat /\
        animationFrameCallbacks p = [] /\ readyTexture p = 2%Z)) /\
      (readyTexture p = 2%Z ->
       schedulerFrames (events ++ [AnimationFrame]) p0 = 1%nat).
Proof.
  split; [|split].
  - intros p H. rewrite (drawWhenReady_waiting p H). repeat split.
  - intros p H. rewrite (drawWhenReady_ready p H).
    split; [reflexivity|]. split; [apply frames_drawScene|].
    rewrite drawScene_emits. reflexivity.
  - intros canvas shapes.
    destruct (startup_invariant canvas shapes) as (p0 & E0 & Hinv0 & Hp0).
    exists p0. split; [exact E0|]. intros events.
    destruct (run_invariant events p0 Hinv0) as (p & Erun & Hinv & _ & Hp).
    exists p. split; [exact Erun|].
    pose proof Hinv as (Hloads & _ & _).
    destruct (loadsCounted_bounds p Hloads) as [Hbounds Hcount].
    split; [exact Hbounds|]. split; [exact Hcount|].
    rewrite (schedulerFrames_app events [AnimationFrame] p0 p Erun).
    destruct (dispatch_AnimationFrame p Hinv) as (q & Eq & _ & [Hs1 Hp1] & _).
    cbn [schedulerFrames]. rewrite Eq.
    destruct (Hp Hp0) as [[Hpoll ->] | [[Hq Hr] ->]].
    + split; [left; split; [reflexivity | exact Hpoll]|].
      intros Hr. destruct (Hp1 Hpoll) as [[Hpq _] | (_ & -> & _)].
      * exfalso.
        destruct (dispatch_AnimationFrame p Hinv)
          as (q' & Eq' & _ & [_ Hp1'] & _).
        rewrite Eq in Eq'. injection Eq' as <-.
        unfold dispatch in Eq. unfold polling in Hpoll.
        rewrite Hpoll in Eq. cbn [fold_left runCallback] in Eq.
        rewrite drawWhenReady_ready in Eq by exact Hr.
        injection Eq as <-.
        unfold polling in Hpq.
        pose proof (control_drawScene (set_animationFrameCallbacks [] p))
          as Hc.
        apply control_fields in Hc. destruct Hc as (_ & _ & Hc & _).
        rewrite Hc in Hpq. discriminate Hpq.
      * reflexivity.
    + split; [right; repeat split; assumption|].
      intros _. destruct (Hs1 (conj Hq Hr)) as [_ ->]. reflexivity.
Qed.

(** *** A drag gesture *)

Lemma drag_control (p q : Page.t) : control p = control q -> drag p = drag q.
Proof.
  intros H. apply control_fields in H.
  destruct H as (_ & _ & _ & Hm & Hx & Hy & Hrx & Hry & _).
  unfold drag. congruence.
Qed.

Lemma drag_drawWhenReady (p : Page.t) : drag (drawWhenReady p) = drag p.
Proof.
  unfold drawWhenReady. destruct (readyTexture p =? 2)%Z.
  - apply drag_control, control_drawScene.
  - reflexivity.
Qed.

Lemma drag_callbacks (callbacks : list FrameCallback) :
  forall p,
  drag (fold_left (fun p callback => runCallback callback p) callbacks p)
  = drag p.
Proof.
  induction callbacks as [|[] rest IH]; intros p; cbn [fold_left].
  - reflexivity.
  - rewrite IH. apply drag_drawWhenReady.
Qed.

Lemma drag_anchored (x y aroundX aroundY : R) (p q : Page.t) :
  drag q = drag p ->
  anchoredAt x y aroundX aroundY p /\ mousemove p <> [] ->
  anchoredAt x y aroundX aroundY q /\ mousemove q <> [].
Proof.
  unfold drag, anchoredAt. intros H. injection H as -> -> -> -> ->. tauto.
Qed.

(** While the button is held, every event leaves the anchor and the
    listeners in place, and no event fails. *)
Lemma run_during_drag (x y aroundX aroundY : R) (between : list Event) :
  Forall duringDrag between ->
  forall p,
  anchoredAt x y aroundX aroundY p /\ mousemove p <> [] ->
  exists p',
    EventLoop.run between p = Some p' /\
    anchoredAt x y aroundX aroundY p' /\ mousemove p' <> [].
Proof.
  induction 1 as [|e rest He _ IH]; intros p Hp.
  - exists p. split; [reflexivity | exact Hp].
  - assert (Hstep : exists q, dispatch e p = Some q /\ drag q = drag p).
    { destruct e as [image| |event|event|event]; try contradiction.
      - destruct (dispatch_Load_fields image p)
          as (q & E & _ & _ & _ & [[_ ->] | (Hl & _ & _)]).
        + exists p. split; [exact E | reflexivity].
        + exists q. split; [exact E|].
          unfold dispatch in E. rewrite Hl in E. injection E as <-.
          destruct image; reflexivity.
      - eexists. split; [reflexivity|]. rewrite drag_callbacks.
        reflexivity.
      - destruct Hp as [Ha _].
        destruct (runListeners_anchored x y aroundX aroundY event
                    (mousemove p) p Ha) as (q & E & Hc & _).
        exists q. split; [exact E | apply drag_control, Hc]. }
    destruct Hstep as (q & E & Hd).
    destruct (IH q (drag_anchored _ _ _ _ p q Hd Hp)) as (p' & Erun & Hp').
    exists p'. cbn [EventLoop.run]. rewrite E. split; assumption.
Qed.

(** C3: after a pointer-down has captured the anchor, and whatever image
    loads, animation frames and pointer-moves come in between, a
    pointer-move sets [rotationAroundX] to the base X rotation minus the
    anchor's pointer Y plus the event's pointer Y, and [rotationAroundY] to
    the base Y rotation minus the anchor's pointer X plus the event's
    pointer X, and the trace then ends with a frame drawn with these
    rotations.  In particular, from [rotationAroundX = 10], pointer-down at
    (100, 100) and pointer-move to (100, 130) give [rotationAroundX = 40]
    and leave [rotationAroundY] as it was. *)
Theorem rotateScene_follows_pointer (p : Page.t)
    (down move : DOM.MouseEvent) (between : list Event) :
  Forall duringDrag between ->
  exists p1 p2,
    EventLoop.run (MouseDown down :: between) p = Some p1 /\
    dispatch (MouseMove move) p1 = Some p2 /\
    rotationAroundX p2
    = rotationAroundX p - DOM.clientY down + DOM.clientY move /\
    rotationAroundY p2
    = rotationAroundY p - DOM.clientX down + DOM.clientX move /\
    (exists middle, gl p2 = gl p1 ++ middle ++ frameCalls p2) /\
    (rotationAroundX p = 10 ->
     DOM.clientX down = 100 -> DOM.clientY down = 100 ->
     DOM.clientX move = 100 -> DOM.clientY move = 130 ->
     rotationAroundX p2 = 40 /\ rotationAroundY p2 = rotationAroundY p).
Proof.
  intros Hbetween.
  assert (Hdown :
    anchoredAt (DOM.clientX down) (DOM.clientY down)
      (rotationAroundX p) (rotationAroundY p) (mousedown down p) /\
    mousemove (mousedown down p) <> []).
  { split; [repeat split|].
    cbn [mousedown set_mousemove mousemove].
    intros H. apply app_eq_nil in H. destruct H as [_ H]. discriminate H. }
  destruct (run_during_drag _ _ _ _ between Hbetween _ Hdown)
    as (p1 & Erun & Ha & Hm).
  destruct (runListeners_anchored _ _ _ _ move (mousemove p1) p1 Ha)
    as (p2 & Emove & _ & _ & Hmove).
  destruct (Hmove Hm) as (HX & HY & Hgl).
  exists p1, p2. cbn [EventLoop.run dispatch].
  split; [exact Erun|]. split; [exact Emove|].
  split; [exact HX|]. split; [exact HY|]. split; [exact Hgl|].
  intros E10 Edx Edy Emx Emy.
  rewrite HX, HY, E10, Edx, Edy, Emx, Emy. split; lra.
Qed.

Lemma rotateScene_follows_pointer_witness :
  Forall duringDrag Sample.between /\
  exists p1 p2,
    EventLoop.run (MouseDown Sample.down :: Sample.between) Sample.page
    = Some p1 /\
    dispatch (MouseMove Sample.move) p1 = Some p2 /\
    rotationAroundX p2
    = rotationAroundX Sample.page - DOM.clientY Sample.down
      + DOM.clientY Sample.move /\
    rotationAroundY p2
    = rotationAroundY Sample.page - DOM.clientX Sample.down
      + DOM.clientX Sample.move /\
    (exists middle, gl p2 = gl p1 ++ middle ++ frameCalls p2) /\
    (rotationAroundX Sample.page = 10 ->
     DOM.clientX Sample.down = 100 -> DOM.clientY Sample.down = 100 ->
     DOM.clientX Sample.move = 100 -> DOM.clientY Sample.move = 130 ->
     rotationAroundX p2 = 40 /\
     rotationAroundY p2 = rotationAroundY Sample.page).
Proof.
  assert (H : Forall duringDrag Sample.between)
    by (repeat constructor).
  split; [exact H|].
  apply (rotateScene_follows_pointer Sample.page Sample.down Sample.move
           Sample.between H).
Defined.

End EventLoopFacts.

(** * Further properties of the code *)

(** ** Rotations and the projection *)

Module TransformMathMore.
Import TransformMath TransformMathFacts.

Lemma axis_unit (x y z : R) :
  x <> 0 \/ y <> 0 \/ z <> 0 ->
  let l := sqrt ((x * x) + (y * y) + (z * z)) in
  (x / l) * (x / l) + (y / l) * (y / l) + (z / l) * (z / l) = 1.
Proof.
  intros Haxis l.
  pose proof (axisLength_nonzero x y z Haxis) as Hl. fold l in Hl.
  assert (Hsq : l * l = (x * x) + (y * y) + (z * z)).
  { unfold l. apply sqrt_sqrt. nra. }
  replace ((x / l) * (x / l) + (y / l) * (y / l) + (z / l) * (z / l))
    with (((x * x) + (y * y) + (z * z)) / (l * l)) by (field; exact Hl).
  rewrite <- Hsq. field. exact Hl.
Qed.


(** X1: a rotation leaves the points of its axis where they are. *)
Theorem getRotationMatrix_fixes_axis (angle x y z : R) :
  x <> 0 \/ y <> 0 \/ z <> 0 ->
  transformPoint (getRotationMatrix angle x y z) x y z = [x; y; z; 1].
Proof.
  intros Haxis.
  pose proof (axis_unit x y z Haxis) as Hunit. cbv zeta in Hunit.
  pose proof (axisLength_nonzero x y z Haxis) as Hl.
  unfold transformPoint, getRotationMatrix, entry. cbn [nth].
  set (l := sqrt ((x * x) + (y * y) + (z * z))) in *.
  assert (Hx : x = (x / l) * l) by (field; exact Hl).
  assert (Hy : y = (y / l) * l) by (field; exact Hl).
  assert (Hz : z = (z / l) * l) by (field; exact Hl).
  set (a := x / l) in *. set (b := y / l) in *. set (c := z / l) in *.
  set (s := sin (angle * PI / 180)). set (k := cos (angle * PI / 180)).
  clearbody a b c s k l.
  f_equal; [|f_equal; [|f_equal; [|f_equal; ring]]]; nsatz.
Qed.

Lemma getRotationMatrix_fixes_axis_witness :
  (0 <> 0 \/ 3 <> 0 \/ 4 <> 0) /\
  transformPoint (getRotationMatrix 30 0 3 4) 0 3 4 = [0; 3; 4; 1].
Proof.
  assert (H : 0 <> 0 \/ 3 <> 0 \/ 4 <> 0) by (right; left; lra).
  split; [exact H|].
  apply (getRotationMatrix_fixes_axis 30 0 3 4 H).
Defined.











End TransformMathMore.

(** ** The buffer-setup pass and the two meshes *)

Module SceneMore.
Import Scene SceneSpec SceneFacts.

(** X7: running the buffer-setup pass a second time changes nothing. *)
Theorem setupObjects_idempotent (objectsToDraw : list ObjectToDraw) :
  exists objectsToDraw',
    setupObjects objectsToDraw = Some objectsToDraw' /\
    setupObjects objectsToDraw' = Some objectsToDraw'.
Proof.
  induction objectsToDraw as [|object rest (rest' & E1 & E2)].
  - exists []. split; reflexivity.
  - eexists. cbn [setupObjects].
    rewrite (setupObject_result object), E1. split; [reflexivity|].
    cbn [setupObjects]. rewrite setupObject_result, E2.
    reflexivity.
Qed.

Lemma vertexCount_bounds (length : nat) :
  (length <= 3 * vertexCount length < length + 3)%nat.
Proof.
  unfold vertexCount.
  pose proof (Nat.div_mod_eq (length + 2) 3).
  pose proof (Nat.mod_upper_bound (length + 2) 3). lia.
Qed.

(** X8: after the pass the five buffers of an object hold its five arrays;
    an expanded colour array is a whole number of (r, g, b) triples, at
    least as long as [vertices] and less than one triple longer. *)
Theorem setupObject_buffers_and_lengths (o : ObjectToDraw) :
  exists o' colors' specularColors',
    setupObject o = Some o' /\
    colors o' = Some colors' /\
    specularColors o' = Some specularColors' /\
    vertexBuffer o' = Some (GL.BufferOf (vertices o)) /\
    colorBuffer o' = Some (GL.BufferOf colors') /\
    specularBuffer o' = Some (GL.BufferOf specularColors') /\
    normalBuffer o' = Some (GL.BufferOf (normals o)) /\
    textureCoordinateBuffer o'
    = Some (GL.BufferOf (textureCoordinates o)) /\
    (colors o = None ->
       (length colors' mod 3 = 0)%nat /\
       (length (vertices o) <= length colors' < length (vertices o) + 3)%nat)
    /\
    (specularColors o = None ->
       (length specularColors' mod 3 = 0)%nat /\
       (length (vertices o) <= length specularColors'
        < length (vertices o) + 3)%nat).
Proof.
  eexists _, _, _. split; [apply setupObject_result|].
  cbn [colors specularColors vertexBuffer colorBuffer specularBuffer
       normalBuffer textureCoordinateBuffer].
  repeat (split; [reflexivity|]).
  pose proof (vertexCount_bounds (length (vertices o))) as Hb.
  split; intros ->; cbn [expanded]; rewrite length_expand;
    (split; [rewrite Nat.mul_comm; apply Nat.Div0.mod_mul | exact Hb]).
Qed.

Section AnySolid.

Variable shapes : Shapes.Library.

Hypothesis toRawTriangleArray_gold :
  length (Shapes.toRawTriangleArray shapes (goldMesh shapes))
  = (9 * length (Shapes.indices (goldMesh shapes)))%nat.

Hypothesis toRawTriangleArray_water :
  length (Shapes.toRawTriangleArray shapes (waterMesh shapes))
  = (9 * length (Shapes.indices (waterMesh shapes)))%nat.

(** X9: whatever solid the library returns, with [n] triangles, the gold
    mesh gets [n / 2] of them (rounded down) and the water mesh the other
    [(n + 1) / 2]; both objects get 60 texture coordinates; and these are
    two per vertex for both objects exactly when [n] is 20. *)
Theorem meshes_of_any_solid :
  let n := length (Shapes.indices (Shapes.icosahedron shapes)) in
  length (Shapes.indices (goldMesh shapes)) = (n / 2)%nat /\
  length (Shapes.indices (waterMesh shapes)) = ((n + 1) / 2)%nat /\
  (length (Shapes.indices (goldMesh shapes))
   + length (Shapes.indices (waterMesh shapes)) = n)%nat /\
  (forall o, In o (objectLiterals shapes) ->
     length (textureCoordinates o) = 60%nat) /\
  ((forall o, In o (objectLiterals shapes) ->
      (2 * length (vertices o) = 3 * length (textureCoordinates o))%nat)
   <-> n = 20%nat).
Proof.
  intros n.
  destruct (positions_length
              (Shapes.indices (Shapes.icosahedron shapes)) 0)
    as [Hgold Hwater].
  cbn [Nat.odd] in Hgold, Hwater. fold n in Hgold, Hwater.
  assert (Eg : length (Shapes.indices (goldMesh shapes)) = (n / 2)%nat)
    by exact Hgold.
  assert (Ew : length (Shapes.indices (waterMesh shapes))
               = ((n + 1) / 2)%nat) by exact Hwater.
  pose proof (Nat.div_mod_eq n 2) as Hn.
  pose proof (Nat.mod_upper_bound n 2) as Hm.
  pose proof (Nat.div_mod_eq (n + 1) 2) as Hn1.
  pose proof (Nat.mod_upper_bound (n + 1) 2) as Hm1.
  split; [exact Eg|]. split; [exact Ew|].
  split; [rewrite Eg, Ew; lia|].
  split.
  - intros o [<- | [<- | []]]; reflexivity.
  - split.
    + intros H.
      pose proof (H _ (or_introl eq_refl)) as H1.
      pose proof (H _ (or_intror (or_introl eq_refl))) as H2.
      cbn [vertices textureCoordinates] in H1, H2.
      rewrite toRawTriangleArray_gold, Eg in H1.
      rewrite toRawTriangleArray_water, Ew in H2.
      change (length generateTextureCoordinates) with 60%nat in H1, H2.
      lia.
    + intros E20 o [<- | [<- | []]]; cbn [vertices textureCoordinates];
        [rewrite toRawTriangleArray_gold, Eg
        |rewrite toRawTriangleArray_water, Ew];
        change (length generateTextureCoordinates) with 60%nat;
        rewrite E20; reflexivity.
Qed.

End AnySolid.

Lemma meshes_of_any_solid_witness :
  length (Shapes.toRawTriangleArray Sample.shapes (goldMesh Sample.shapes))
  = (9 * length (Shapes.indices (goldMesh Sample.shapes)))%nat /\
  length (Shapes.toRawTriangleArray Sample.shapes (waterMesh Sample.shapes))
  = (9 * length (Shapes.indices (waterMesh Sample.shapes)))%nat /\
  let n := length (Shapes.indices (Shapes.icosahedron Sample.shapes)) in
  length (Shapes.indices (goldMesh Sample.shapes)) = (n / 2)%nat /\
  length (Shapes.indices (waterMesh Sample.shapes)) = ((n + 1) / 2)%nat /\
  (length (Shapes.indices (goldMesh Sample.shapes))
   + length (Shapes.indices (waterMesh Sample.shapes)) = n)%nat /\
  (forall o, In o (objectLiterals Sample.shapes) ->
     length (textureCoordinates o) = 60%nat) /\
  ((forall o, In o (objectLiterals Sample.shapes) ->
      (2 * length (vertices o) = 3 * length (textureCoordinates o))%nat)
   <-> n = 20%nat).
Proof.
  split; [reflexivity|]. split; [reflexivity|].
  apply (meshes_of_any_solid Sample.shapes); reflexivity.
Defined.

End SceneMore.

(** ** One frame *)

Module RendererMore.
Import TransformMath Page Context RendererSpec RendererFacts MoreSpec.

(** X10: [drawScene] changes no variable of the program; it appends to the
    trace one [clear], then calls among which there are exactly as many
    [drawArrays] as objects and no [flush], then one [flush]. *)
Theorem drawScene_appends_one_frame (p : Page.t) (st : State) :
  let n := length (objectsToDraw p) in
  exists middle,
    drawScene p
    = set_gl (gl p ++ [Trace.clear] ++ middle ++ [Trace.flush]) p /\
    length (draws st middle) = n /\
    frames middle = 0%nat.
Proof.
  intros n.
  exists
    ([ Trace.uniformMatrix4fv Shader.xRotationMatrix
         (getRotationMatrix (rotationAroundX p) 1 0 0);
       Trace.uniformMatrix4fv Shader.yRotationMatrix
         (getRotationMatrix (rotationAroundY p) 0 1 0) ]
     ++ objectsCalls n 0 (objectsToDraw p)).
  split; [|split].
  - rewrite drawScene_emits. unfold frameCalls. fold n.
    cbn [app]. reflexivity.
  - rewrite draws_app. cbn [draws app].
    destruct (objects_draws n (objectsToDraw p) 0%nat
                (run st
                   [ Trace.uniformMatrix4fv Shader.xRotationMatrix
                       (getRotationMatrix (rotationAroundX p) 1 0 0);
                     Trace.uniformMatrix4fv Shader.yRotationMatrix
                       (getRotationMatrix (rotationAroundY p) 0 1 0) ]))
      as [Hlen _].
    exact Hlen.
  - unfold frames. rewrite filter_app, length_app.
    pose proof
      (EventLoopFacts.frames_objectsCalls n (objectsToDraw p) 0) as H.
    unfold frames in H. rewrite H. reflexivity.
Qed.

Lemma context_run_app (a b : list Trace.Call) (st : State) :
  run st (a ++ b) = run (run st a) b.
Proof. unfold run. apply fold_left_app. Qed.

Lemma iteration_run (n i : nat) (o : ObjectToDraw) (st : State) :
  (INR i < INR n / 2 -> leftOpaque (run st (iterationCalls n i o))) /\
  (~ INR i < INR n / 2 -> leftTranslucent (run st (iterationCalls n i o))).
Proof.
  unfold iterationCalls, drawObjectCalls, leftOpaque, leftTranslucent.
  destruct st as [dt bl ui uf ab ap].
  destruct (Rlt_dec (INR i) (INR n / 2)) as [Hlt | Hge];
    cbn [app run fold_left step setCapability depthTest blend uniformInt
         uniformFloat arrayBuffer attribute];
    (split; [intros H | intros H]); try contradiction; repeat split.
Qed.

Lemma objects_run_last (n : nat) (objects : list ObjectToDraw) :
  forall index st, objects <> [] ->
  (INR (index + length objects - 1) < INR n / 2 ->
   leftOpaque (run st (objectsCalls n index objects))) /\
  (~ INR (index + length objects - 1) < INR n / 2 ->
   leftTranslucent (run st (objectsCalls n index objects))).
Proof.
  induction objects as [|object rest IH]; intros index st Hne;
    [contradiction|].
  cbn [objectsCalls]. rewrite context_run_app.
  destruct rest as [|next rest].
  - cbn [objectsCalls run fold_left length].
    replace (index + 1 - 1)%nat with index by lia.
    apply iteration_run.
  - replace (index + length (object :: next :: rest) - 1)%nat
      with (S index + length (next :: rest) - 1)%nat
      by (cbn [length]; lia).
    apply IH. discriminate.
Qed.

(** X11: the blending settings a frame leaves behind are those of its last
    object.  With two objects or more the context is left with the depth
    test disabled, blending enabled, alpha 0.5 and sampler 1; with one
    object it is left in the opaque settings; with none the frame does not
    touch them. *)
Theorem drawScene_leaves_settings (p : Page.t) (st : State) :
  let n := length (objectsToDraw p) in
  let before := run st (gl p) in
  let after := run st (gl (drawScene p)) in
  ((2 <= n)%nat -> leftTranslucent after) /\
  (n = 1%nat -> leftOpaque after) /\
  (n = 0%nat ->
   depthTest after = depthTest before /\ blend after = blend before /\
   uniformFloat after Shader.alpha = uniformFloat before Shader.alpha /\
   uniformInt after Shader.sampler = uniformInt before Shader.sampler).
Proof.
  intros n before after.
  assert (E : after = run before (objectsCalls n 0 (objectsToDraw p))).
  { unfold after, before. rewrite drawScene_emits, gl_set_gl, context_run_app.
    unfold frameCalls. fold n. rewrite !context_run_app. reflexivity. }
  rewrite E.
  assert (Hlast : objectsToDraw p <> [] ->
    (INR (n - 1) < INR n / 2 ->
     leftOpaque (run before (objectsCalls n 0 (objectsToDraw p)))) /\
    (~ INR (n - 1) < INR n / 2 ->
     leftTranslucent (run before (objectsCalls n 0 (objectsToDraw p))))).
  { intros Hne. exact (objects_run_last n (objectsToDraw p) 0 before Hne). }
  split; [|split].
  - intros Hn. destruct Hlast as [_ Ht].
    + intros Hnil. unfold n in Hn. rewrite Hnil in Hn. cbn in Hn. lia.
    + apply Ht. rewrite half_test. lia.
  - intros Hn. destruct Hlast as [Ho _].
    + intros Hnil. unfold n in Hn. rewrite Hnil in Hn. discriminate Hn.
    + apply Ho. rewrite half_test. lia.
  - intros Hn. unfold n in Hn. apply length_zero_iff_nil in Hn.
    rewrite Hn. cbn [objectsCalls run fold_left]. repeat split.
Qed.

Lemma iteration_fullyBound (n i : nat) (o : ObjectToDraw) (st : State) :
  exists d, draws st (iterationCalls n i o) = [d] /\ fullyBound d o.
Proof.
  unfold iterationCalls, drawObjectCalls, fullyBound.
  destruct st as [dt bl ui uf ab ap].
  destruct (Rlt_dec (INR i) (INR n / 2)) as [Hlt | Hge];
    cbn [app draws step setCapability depthTest blend uniformInt
         uniformFloat arrayBuffer attribute];
    eexists; (split; [reflexivity|]); repeat split.
Qed.

Lemma objects_fullyBound (n : nat) (objects : list ObjectToDraw) :
  forall index st,
  Forall2 fullyBound (draws st (objectsCalls n index objects)) objects.
Proof.
  induction objects as [|object rest IH]; intros index st;
    cbn [objectsCalls].
  - constructor.
  - rewrite draws_app.
    destruct (iteration_fullyBound n index object st) as (d & -> & Hd).
    cbn [app]. constructor; [exact Hd | apply IH].
Qed.

(** X12: in a frame, each object is drawn with all five vertex attributes
    read from its own buffers and with its own shininess: no draw call
    mixes the buffers of two objects, whatever was bound before. *)
Theorem drawScene_binds_own_buffers (p : Page.t) (st : State) :
  exists frame,
    draws st (gl (drawScene p)) = draws st (gl p) ++ frame /\
    Forall2 fullyBound frame (objectsToDraw p).
Proof.
  eexists. split.
  - rewrite drawScene_emits, gl_set_gl, draws_app, frame_draws.
    reflexivity.
  - apply objects_fullyBound.
Qed.

End RendererMore.

(** ** Sessions *)

Module EventLoopMore.
Import Page EventLoop Context RendererSpec RendererFacts EventLoopSpec.
Import EventLoopFacts MoreSpec.

(** *** What a turn of the event loop adds to the trace *)

Lemma quiet_objectsCalls (n : nat) (objects : list ObjectToDraw) :
  forall index, Forall quiet (objectsCalls n index objects).
Proof.
  induction objects as [|object rest IH]; intros index;
    cbn [objectsCalls]; [constructor|].
  apply Forall_app. split; [|apply IH].
  unfold iterationCalls, drawObjectCalls.
  destruct (Rlt_dec (INR index) (INR n / 2)); cbn [app];
    repeat (constructor; [split; reflexivity|]); constructor.
Qed.

Lemma quiet_frameCalls (p : Page.t) : Forall quiet (frameCalls p).
Proof.
  unfold frameCalls.
  apply Forall_app. split.
  - repeat (constructor; [split; reflexivity|]). constructor.
  - apply Forall_app. split; [apply quiet_objectsCalls|].
    repeat (constructor; [split; reflexivity|]). constructor.
Qed.

(** A page [q] that differs from [p] by quiet calls added to the trace and
    by the rotations at most. *)
Lemma drawScene_quiet (p : Page.t) :
  exists added,
    gl (drawScene p) = gl p ++ added /\ Forall quiet added /\
    loading (drawScene p) = loading p.
Proof.
  exists (frameCalls p). rewrite drawScene_emits.
  split; [reflexivity|]. split; [apply quiet_frameCalls | reflexivity].
Qed.

Lemma rotateScene_quiet (event : DOM.MouseEvent) (p q : Page.t) :
  rotateScene event p = Some q ->
  exists added,
    gl q = gl p ++ added /\ Forall quiet added /\ loading q = loading p.
Proof.
  unfold rotateScene. intros H.
  destruct (xRotationStart p), (yDragStart p), (yRotationStart p),
    (xDragStart p); try discriminate H.
  injection H as <-.
  match goal with
  | |- context [drawScene ?q] =>
      destruct (drawScene_quiet q) as (added & G & Q & L)
  end.
  exists added. split; [exact G|]. split; [exact Q | exact L].
Qed.

Lemma runListeners_quiet (event : DOM.MouseEvent)
    (listeners : list Listener) :
  forall p q, runListeners listeners event p = Some q ->
  exists added,
    gl q = gl p ++ added /\ Forall quiet added /\ loading q = loading p.
Proof.
  induction listeners as [|[] rest IH]; intros p q H;
    cbn [runListeners runListener] in H.
  - injection H as <-. exists []. rewrite app_nil_r. repeat split.
    constructor.
  - destruct (rotateScene event p) as [p1|] eqn:E; [|discriminate H].
    destruct (rotateScene_quiet event p p1 E) as (a1 & G1 & Q1 & L1).
    destruct (IH p1 q H) as (a2 & G2 & Q2 & L2).
    exists (a1 ++ a2). rewrite G2, G1, app_assoc.
    split; [reflexivity|]. split; [apply Forall_app; auto | congruence].
Qed.

Lemma callbacks_quiet (callbacks : list FrameCallback) :
  forall p, exists added,
    gl (fold_left (fun p callback => runCallback callback p) callbacks p)
    = gl p ++ added /\
    Forall quiet added /\
    loading (fold_left (fun p callback => runCallback callback p)
               callbacks p)
    = loading p.
Proof.
  induction callbacks as [|[] rest IH]; intros p; cbn [fold_left].
  - exists []. rewrite app_nil_r. repeat split. constructor.
  - destruct (IH (runCallback drawWhenReadyCallback p))
      as (a2 & G2 & Q2 & L2).
    assert (H1 : exists a1,
      gl (runCallback drawWhenReadyCallback p) = gl p ++ a1 /\
      Forall quiet a1 /\
      loading (runCallback drawWhenReadyCallback p) = loading p).
    { cbn [runCallback]. unfold drawWhenReady.
      destruct (readyTexture p =? 2)%Z; [apply drawScene_quiet|].
      exists []. rewrite app_nil_r. repeat split. constructor. }
    destruct H1 as (a1 & G1 & Q1 & L1).
    exists (a1 ++ a2). rewrite G2, G1, app_assoc.
    split; [reflexivity|]. split; [apply Forall_app; auto | congruence].
Qed.

Lemma onload_calls (image : DOM.Image) (p : Page.t) :
  gl (onload image p) = gl p ++ loadCalls image /\
  loading (onload image p) = loading p.
Proof.
  destruct image; (split; [|reflexivity]);
    unfold onload, loadHandlerFor, andThen, call, loadCalls, handlerCalls;
    cbn [gl set_gl set_readyTexture];
    rewrite <- !app_assoc; reflexivity.
Qed.

(** One turn either adds quiet calls and leaves the loading images alone,
    or is the load of an image still loading and adds the calls of its
    handler. *)
Lemma dispatch_calls (e : Event) (p p' : Page.t) :
  dispatch e p = Some p' ->
  (exists added,
     gl p' = gl p ++ added /\ Forall quiet added /\
     loading p' = loading p) \/
  (exists image,
     In image (loading p) /\
     gl p' = gl p ++ loadCalls image /\
     loading p'
     = List.filter (fun i => negb (DOM.Image_eqb image i)) (loading p)).
Proof.
  destruct e as [image| |event|event|event]; cbn [dispatch]; intros H.
  - unfold isLoading in H.
    destruct (existsb (DOM.Image_eqb image) (loading p)) eqn:Hl.
    + right. exists image. injection H as <-.
      split.
      * apply existsb_exists in Hl. destruct Hl as (i & Hi & Ei).
        destruct image, i; try discriminate Ei; exact Hi.
      * destruct (onload_calls image
                    (set_loading
                       (List.filter
                          (fun i => negb (DOM.Image_eqb image i))
                          (loading p)) p)) as [G L].
        split; [exact G | exact L].
    + left. injection H as <-. exists []. rewrite app_nil_r.
      repeat split. constructor.
  - left. injection H as <-.
    destruct (callbacks_quiet (animationFrameCallbacks p)
                (set_animationFrameCallbacks [] p)) as (a & G & Q & L).
    exists a. auto.
  - left. injection H as <-. exists []. rewrite app_nil_r.
    repeat split. constructor.
  - left. apply (runListeners_quiet event (mousemove p)). exact H.
  - left. injection H as <-. exists []. rewrite app_nil_r.
    repeat split. constructor.
Qed.

Lemma quiet_loadCalls_settings (image : DOM.Image) :
  Forall (fun c => isSetting c = false) (loadCalls image).
Proof.
  destruct image; repeat (constructor; [reflexivity|]); constructor.
Qed.

Lemma run_settings (events : list Event) :
  forall p p', EventLoop.run events p = Some p' ->
  exists rest,
    gl p' = gl p ++ rest /\ Forall (fun c => isSetting c = false) rest.
Proof.
  induction events as [|e rest IH]; intros p p' H; cbn [EventLoop.run] in H.
  - injection H as <-. exists []. rewrite app_nil_r. split; constructor.
  - destruct (dispatch e p) as [q|] eqn:E; [|discriminate H].
    destruct (IH q p' H) as (r2 & G2 & S2).
    destruct (dispatch_calls e p q E)
      as [(a & G & Q & _) | (image & _ & G & _)].
    + exists (a ++ r2). rewrite G2, G, app_assoc. split; [reflexivity|].
      apply Forall_app. split; [|exact S2].
      apply (Forall_impl _ (fun c (Hc : quiet c) => proj1 Hc) Q).
    + exists (loadCalls image ++ r2). rewrite G2, G, app_assoc.
      split; [reflexivity|].
      apply Forall_app. split; [apply quiet_loadCalls_settings | exact S2].
Qed.

Lemma startup_page (canvas : DOM.Canvas) (shapes : Shapes.Library) :
  exists objects,
    startup canvas shapes
    = Some
        {| readyTexture := 0;
           objectsToDraw := objects;
           rotationAroundX := 0;
           rotationAroundY := 0;
           xDragStart := None; yDragStart := None;
           xRotationStart := None; yRotationStart := None;
           gl := startupCalls canvas;
           mousemove := [];
           animationFrameCallbacks := [drawWhenReadyCallback];
           loading := [DOM.goldImage; DOM.waterImage] |}.
Proof.
  unfold startup.
  destruct (SceneFacts.setupObjects_succeeds (objectLiterals shapes))
    as [objects ->].
  exists objects. reflexivity.
Qed.

(** X13: the settings of the session are installed once.  Along every run
    from startup the trace is the startup calls followed by calls none of
    which sets the viewport, the clear colour, the blend function, the
    shader program, the attribute arrays, the projection or the light. *)
Theorem settings_fixed_for_the_session (canvas : DOM.Canvas)
    (shapes : Shapes.Library) (events : list Event) :
  exists p0 p rest,
    startup canvas shapes = Some p0 /\
    EventLoop.run events p0 = Some p /\
    gl p = startupCalls canvas ++ rest /\
    Forall (fun c => isSetting c = false) rest.
Proof.
  destruct (startup_invariant canvas shapes) as (p0 & E0 & Hinv & _).
  destruct (run_invariant events p0 Hinv) as (p & Erun & _).
  destruct (run_settings events p0 p Erun) as (rest & G & Hs).
  exists p0, p, rest. split; [exact E0|]. split; [exact Erun|].
  split; [|exact Hs].
  destruct (startup_page canvas shapes) as [objects E].
  rewrite E in E0. injection E0 as <-. exact G.
Qed.

(** *** The texture units *)

Lemma textures_app (a b : list Trace.Call) :
  textures (a ++ b) = fold_left textureStep b (textures a).
Proof. unfold textures. apply fold_left_app. Qed.

Lemma quiet_textures (added : list Trace.Call) :
  Forall quiet added ->
  forall ts, fold_left textureStep added ts = ts.
Proof.
  induction 1 as [|c rest [_ Hc] _ IH]; intros ts; [reflexivity|].
  cbn [fold_left].
  replace (textureStep ts c) with ts
    by (destruct c; try discriminate Hc; reflexivity).
  apply IH.
Qed.

Lemma load_textures (image : DOM.Image) (ts : Textures) :
  let ts' := fold_left textureStep (loadCalls image) ts in
  match image with
  | DOM.goldImage => goldReady ts' /\ (waterReady ts -> waterReady ts')
  | DOM.waterImage => waterReady ts' /\ (goldReady ts -> goldReady ts')
  end.
Proof.
  destruct ts as [active bnd up].
  destruct image; unfold goldReady, waterReady; cbn; tauto.
Qed.

Lemma filter_other (image other : DOM.Image) (l : list DOM.Image) :
  DOM.Image_eqb image other = false ->
  ~ In other (List.filter (fun i => negb (DOM.Image_eqb image i)) l) ->
  ~ In other l.
Proof.
  intros Hne Hnot Hin. apply Hnot, filter_In. split; [exact Hin|].
  rewrite Hne. reflexivity.
Qed.

Lemma run_textures (events : list Event) :
  forall p p', EventLoop.run events p = Some p' ->
  ((~ In DOM.goldImage (loading p) -> goldReady (textures (gl p))) /\
   (~ In DOM.waterImage (loading p) -> waterReady (textures (gl p)))) ->
  (~ In DOM.goldImage (loading p') -> goldReady (textures (gl p'))) /\
  (~ In DOM.waterImage (loading p') -> waterReady (textures (gl p'))).
Proof.
  induction events as [|e rest IH]; intros p p' H Hp;
    cbn [EventLoop.run] in H.
  - injection H as <-. exact Hp.
  - destruct (dispatch e p) as [q|] eqn:E; [|discriminate H].
    apply (IH q p' H). destruct Hp as [Hg Hw].
    destruct (dispatch_calls e p q E)
      as [(a & G & Q & L) | (image & Hin & G & L)].
    + rewrite G, L, textures_app, (quiet_textures a Q). auto.
    + rewrite G, L, textures_app.
      pose proof (load_textures image (textures (gl p))) as Hload.
      cbv zeta in Hload.
      destruct image; destruct Hload as [Hnew Hold]; split; intros Hnot.
      * exact Hnew.
      * apply Hold, Hw.
        exact (filter_other DOM.goldImage DOM.waterImage _ eq_refl Hnot).
      * apply Hold, Hg.
        exact (filter_other DOM.waterImage DOM.goldImage _ eq_refl Hnot).
      * exact Hnew.
Qed.

(** X14: along every run from startup, as soon as an image has loaded its
    texture holds it and is bound in its own unit, gold in unit 0 and water
    in unit 1, in whatever order the images load and whatever is drawn in
    between; so when the counter is 2 both units are ready. *)
Theorem textures_in_their_units (canvas : DOM.Canvas)
    (shapes : Shapes.Library) (events : list Event) :
  exists p0 p,
    startup canvas shapes = Some p0 /\
    EventLoop.run events p0 = Some p /\
    (~ In DOM.goldImage (loading p) -> goldReady (textures (gl p))) /\
    (~ In DOM.waterImage (loading p) -> waterReady (textures (gl p))) /\
    (readyTexture p = 2%Z ->
     goldReady (textures (gl p)) /\ waterReady (textures (gl p))).
Proof.
  destruct (startup_invariant canvas shapes) as (p0 & E0 & Hinv & _).
  destruct (run_invariant events p0 Hinv) as (p & Erun & Hinv' & _).
  exists p0, p. split; [exact E0|]. split; [exact Erun|].
  assert (H0 :
    (~ In DOM.goldImage (loading p0) -> goldReady (textures (gl p0))) /\
    (~ In DOM.waterImage (loading p0) -> waterReady (textures (gl p0)))).
  { destruct (startup_page canvas shapes) as [objects E].
    rewrite E in E0. injection E0 as <-. cbn [loading].
    split; intros H; exfalso; apply H; cbn [In]; auto. }
  destruct (run_textures events p0 p Erun H0) as [Hg Hw].
  split; [exact Hg|]. split; [exact Hw|].
  intros Hr. destruct Hinv' as (Hloads & _).
  destruct Hloads as [[_ Er] | [[_ Er] | [[_ Er] | [El _]]]];
    try (rewrite Er in Hr; discriminate Hr).
  rewrite El in Hg, Hw. split; [apply Hg | apply Hw]; intros [].
Qed.

(** *** The pointer *)

Lemma view_drawScene (p : Page.t) : view (drawScene p) = view p.
Proof. rewrite drawScene_emits. reflexivity. Qed.

Lemma view_callbacks (callbacks : list FrameCallback) :
  forall p,
  view (fold_left (fun p callback => runCallback callback p) callbacks p)
  = view p.
Proof.
  induction callbacks as [|[] rest IH]; intros p; cbn [fold_left].
  - reflexivity.
  - rewrite IH. cbn [runCallback]. unfold drawWhenReady.
    destruct (readyTexture p =? 2)%Z; [apply view_drawScene | reflexivity].
Qed.

Lemma dispatch_released (e : Event) (p : Page.t) :
  notMouseDown e -> mousemove p = [] ->
  exists p', dispatch e p = Some p' /\ view p' = view p.
Proof.
  intros He Hm. destruct e as [image| |event|event|event];
    try contradiction.
  - unfold dispatch. destruct (isLoading image p).
    + eexists. split; [reflexivity|]. destruct image; reflexivity.
    + exists p. split; reflexivity.
  - eexists. split; [reflexivity|]. rewrite view_callbacks. reflexivity.
  - exists p. cbn [dispatch]. rewrite Hm. split; reflexivity.
  - exists (mouseup event p). split; [reflexivity|].
    unfold view. cbn [mouseup set_mousemove mousemove rotationAroundX
                      rotationAroundY].
    rewrite Hm. reflexivity.
Qed.

Lemma run_released (events : list Event) :
  Forall notMouseDown events ->
  forall p, mousemove p = [] ->
  exists p', EventLoop.run events p = Some p' /\ view p' = view p.
Proof.
  induction 1 as [|e rest He _ IH]; intros p Hm.
  - exists p. split; reflexivity.
  - destruct (dispatch_released e p He Hm) as (q & E & Hv).
    assert (Hq : mousemove q = []).
    { unfold view in Hv. injection Hv as -> _ _. exact Hm. }
    destruct (IH q Hq) as (p' & Erun & Hv').
    exists p'. cbn [EventLoop.run]. rewrite E.
    split; [exact Erun | congruence].
Qed.

(** X15: while no listener is bound, events other than a pointer-down
    never rotate the scene: pointer-moves and pointer-ups are ignored, and
    loads and animation frames leave the rotations alone. *)
Theorem no_rotation_without_pointer_down (p : Page.t)
    (events : list Event) :
  mousemove p = [] -> Forall notMouseDown events ->
  exists p',
    EventLoop.run events p = Some p' /\
    mousemove p' = [] /\
    rotationAroundX p' = rotationAroundX p /\
    rotationAroundY p' = rotationAroundY p.
Proof.
  intros Hm Hevents.
  destruct (run_released events Hevents p Hm) as (p' & Erun & Hv).
  exists p'. split; [exact Erun|].
  unfold view in Hv. injection Hv as -> -> ->. auto.
Qed.

Lemma no_rotation_without_pointer_down_witness :
  mousemove Sample.page = [] /\
  Forall notMouseDown
    [MouseMove Sample.move; AnimationFrame; MouseUp Sample.move;
     Load DOM.goldImage] /\
  exists p',
    EventLoop.run
      [MouseMove Sample.move; AnimationFrame; MouseUp Sample.move;
       Load DOM.goldImage] Sample.page = Some p' /\
    mousemove p' = [] /\
    rotationAroundX p' = rotationAroundX Sample.page /\
    rotationAroundY p' = rotationAroundY Sample.page.
Proof.
  assert (Hm : mousemove Sample.page = []) by reflexivity.
  assert (He : Forall notMouseDown
                 [MouseMove Sample.move; AnimationFrame;
                  MouseUp Sample.move; Load DOM.goldImage])
    by (repeat constructor).
  split; [exact Hm|]. split; [exact He|].
  apply (no_rotation_without_pointer_down Sample.page _ Hm He).
Defined.

(** X16: a whole drag.  After pointer-down, any loads, frames and moves,
    a last pointer-move and the pointer-up, the rotations are those set by
    the last move, no listener is bound any more, and they stay so
    whatever events other than a pointer-down follow. *)
Theorem rotation_persists_after_release (p : Page.t)
    (down move up : DOM.MouseEvent) (between after : list Event) :
  Forall duringDrag between -> Forall notMouseDown after ->
  exists p',
    EventLoop.run
      (MouseDown down :: between ++ [MouseMove move; MouseUp up] ++ after)
      p = Some p' /\
    mousemove p' = [] /\
    rotationAroundX p'
    = rotationAroundX p - DOM.clientY down + DOM.clientY move /\
    rotationAroundY p'
    = rotationAroundY p - DOM.clientX down + DOM.clientX move.
Proof.
  intros Hbetween Hafter.
  assert (Hdown :
    anchoredAt (DOM.clientX down) (DOM.clientY down)
      (rotationAroundX p) (rotationAroundY p) (mousedown down p) /\
    mousemove (mousedown down p) <> []).
  { split; [repeat split|].
    cbn [mousedown set_mousemove mousemove].
    intros H. apply app_eq_nil in H. destruct H as [_ H]. discriminate H. }
  destruct (run_during_drag _ _ _ _ between Hbetween _ Hdown)
    as (p1 & Erun & Ha & Hm).
  destruct (runListeners_anchored _ _ _ _ move (mousemove p1) p1 Ha)
    as (p2 & Emove & _ & _ & Hmove).
  destruct (Hmove Hm) as (HX & HY & _).
  destruct (run_released after Hafter (mouseup up p2) eq_refl)
    as (p' & Eafter & Hv).
  exists p'. split.
  - cbn [EventLoop.run dispatch].
    rewrite (EventLoopFacts.run_app between _ _ p1 Erun).
    cbn [EventLoop.run dispatch app]. rewrite Emove. exact Eafter.
  - unfold view in Hv. injection Hv as -> -> ->.
    cbn [mouseup set_mousemove mousemove rotationAroundX rotationAroundY].
    auto.
Qed.

Lemma rotation_persists_after_release_witness :
  Forall duringDrag Sample.between /\
  Forall notMouseDown [MouseMove Sample.down; AnimationFrame] /\
  exists p',
    EventLoop.run
      (MouseDown Sample.down
       :: Sample.between ++ [MouseMove Sample.move; MouseUp Sample.move]
          ++ [MouseMove Sample.down; AnimationFrame])
      Sample.page = Some p' /\
    mousemove p' = [] /\
    rotationAroundX p'
    = rotationAroundX Sample.page - DOM.clientY Sample.down
      + DOM.clientY Sample.move /\
    rotationAroundY p'
    = rotationAroundY Sample.page - DOM.clientX Sample.down
      + DOM.clientX Sample.move.
Proof.
  assert (H1 : Forall duringDrag Sample.between) by (repeat constructor).
  assert (H2 : Forall notMouseDown [MouseMove Sample.down; AnimationFrame])
    by (repeat constructor).
  split; [exact H1|]. split; [exact H2|].
  apply (rotation_persists_after_release Sample.page Sample.down
           Sample.move Sample.move Sample.between _ H1 H2).
Defined.

Lemma runListeners_frames (x y aroundX aroundY : R)
    (event : DOM.MouseEvent) (listeners : list Listener) :
  forall p,
  anchoredAt x y aroundX aroundY p ->
  exists p',
    runListeners listeners event p = Some p' /\
    frames (gl p') = (frames (gl p) + length listeners)%nat.
Proof.
  induction listeners as [|[] rest IH]; intros p Ha.
  - exists p. split; [reflexivity | cbn [length]; lia].
  - cbn [runListeners runListener].
    rewrite (rotateScene_anchored x y aroundX aroundY event p Ha).
    set (q := drawScene
                (set_rotation (aroundX - y + DOM.clientY event)
                   (aroundY - x + DOM.clientX event) p)).
    assert (Hq : control q = control p).
    { unfold q. rewrite control_drawScene. apply control_set_rotation. }
    destruct (IH q (anchoredAt_control _ _ _ _ p q (eq_sym Hq) Ha))
      as (p' & Erun & Hf).
    exists p'. split; [exact Erun|].
    rewrite Hf. unfold q. rewrite frames_drawScene.
    cbn [set_rotation gl length]. lia.
Qed.

Lemma run_mousedowns (downs : list DOM.MouseEvent) :
  forall p, exists p1,
    EventLoop.run (map MouseDown downs) p = Some p1 /\
    mousemove p1
    = mousemove p ++ repeat rotateSceneListener (length downs) /\
    gl p1 = gl p /\
    (downs <> [] -> exists x y aroundX aroundY,
       anchoredAt x y aroundX aroundY p1).
Proof.
  induction downs as [|down rest IH]; intros p.
  - exists p. cbn [map EventLoop.run length repeat].
    rewrite app_nil_r. repeat split. intros H; contradiction.
  - destruct (IH (mousedown down p)) as (p1 & Erun & Hm & Hgl & Ha).
    exists p1. cbn [map EventLoop.run dispatch].
    split; [exact Erun|]. split; [|split; [exact Hgl|]].
    + rewrite Hm. cbn [mousedown set_mousemove mousemove length repeat].
      rewrite <- app_assoc. reflexivity.
    + intros _. destruct rest as [|next rest].
      * cbn [map EventLoop.run] in Erun. injection Erun as <-.
        eexists _, _, _, _. repeat split.
      * apply Ha. discriminate.
Qed.

(** X17: listeners pile up.  Each pointer-down binds [rotateScene] once
    more and only a pointer-up unbinds; after [k] pointer-downs in a row
    one pointer-move redraws the scene [k] times. *)
Theorem pointer_move_redraws_once_per_pointer_down (p : Page.t)
    (downs : list DOM.MouseEvent) (move : DOM.MouseEvent) :
  mousemove p = [] ->
  exists p1 p2,
    EventLoop.run (map MouseDown downs) p = Some p1 /\
    length (mousemove p1) = length downs /\
    dispatch (MouseMove move) p1 = Some p2 /\
    frames (gl p2) = (frames (gl p) + length downs)%nat.
Proof.
  intros Hm.
  destruct (run_mousedowns downs p) as (p1 & Erun & Hm1 & Hgl & Ha).
  rewrite Hm in Hm1. cbn [app] in Hm1.
  assert (Hlen : length (mousemove p1) = length downs)
    by (rewrite Hm1; apply repeat_length).
  destruct downs as [|down rest].
  - exists p1, p1. split; [exact Erun|]. split; [exact Hlen|].
    cbn [dispatch]. rewrite Hm1. cbn [length repeat runListeners].
    split; [reflexivity|]. rewrite Hgl. lia.
  - destruct Ha as (x & y & ax & ay & Ha); [discriminate|].
    destruct (runListeners_frames x y ax ay move (mousemove p1) p1 Ha)
      as (p2 & Emove & Hf).
    exists p1, p2. split; [exact Erun|]. split; [exact Hlen|].
    split; [exact Emove|]. rewrite Hf, Hgl, Hlen. reflexivity.
Qed.

Lemma pointer_move_redraws_once_per_pointer_down_witness :
  mousemove Sample.page = [] /\
  exists p1 p2,
    EventLoop.run (map MouseDown [Sample.down; Sample.down]) Sample.page
    = Some p1 /\
    length (mousemove p1) = length [Sample.down; Sample.down] /\
    dispatch (MouseMove Sample.move) p1 = Some p2 /\
    frames (gl p2)
    = (frames (gl Sample.page) + length [Sample.down; Sample.down])%nat.
Proof.
  assert (Hm : mousemove Sample.page = []) by reflexivity.
  split; [exact Hm|].
  apply (pointer_move_redraws_once_per_pointer_down Sample.page
           [Sample.down; Sample.down] Sample.move Hm).
Defined.

(** X18: the mouse handler does not wait for the textures.  Right after
    startup, with no image loaded, a pointer-down followed by a
    pointer-move draws a frame, while the startup scheduler has drawn none
    and is still queued. *)
Theorem drag_draws_before_textures_are_ready (canvas : DOM.Canvas)
    (shapes : Shapes.Library) (down move : DOM.MouseEvent) :
  exists p0 p,
    startup canvas shapes = Some p0 /\
    EventLoop.run [MouseDown down; MouseMove move] p0 = Some p /\
    readyTexture p = 0%Z /\
    loading p = [DOM.goldImage; DOM.waterImage] /\
    frames (gl p0) = 0%nat /\
    frames (gl p) = 1%nat /\
    schedulerFrames [MouseDown down; MouseMove move] p0 = 0%nat /\
    animationFrameCallbacks p = [drawWhenReadyCallback].
Proof.
  destruct (startup_page canvas shapes) as [objects E0].
  eexists _, _. split; [exact E0|].
  cbn [EventLoop.run dispatch schedulerFrames schedulerDraws mousedown
       set_mousemove set_dragStart mousemove app runListeners runListener].
  unfold rotateScene.
  cbn [xRotationStart yDragStart yRotationStart xDragStart plus].
  split; [reflexivity|].
  rewrite drawScene_emits.
  cbn [set_gl set_rotation readyTexture loading gl
       animationFrameCallbacks].
  split; [reflexivity|]. split; [reflexivity|].
  split; [reflexivity|].
  split; [|split; reflexivity].
  rewrite frames_app, frames_frameCalls. reflexivity.
Qed.

End EventLoopMore.

(** ** The axis of a rotation *)

Module AxisFacts.
Import TransformMath TransformSpec TransformMathFacts TransformMathMore.



End AxisFacts.

(** ** Rotations in binary64 *)

Module Binary64Facts.
Import PrimFloat SpecFloat FloatOps FloatAxioms Binary64.
#[local] Open Scope float_scope.

Lemma Prim2SF_zero : Prim2SF 0 = S754_zero false.
Proof. reflexivity. Qed.

Lemma Prim2SF_infinity : Prim2SF infinity = S754_infinity false.
Proof. reflexivity. Qed.

Lemma SFeqb_refl_finite (f : spec_float) :
  SFfinite f = true -> SFeqb f f = true.
Proof.
  destruct f as [s|s| |s m e]; try discriminate; intros _; [reflexivity|].
  unfold SFeqb, SFcompare. rewrite Z.compare_refl.
  replace (Pos.compare_cont Eq m m) with Eq
    by (symmetry; apply Pos.compare_cont_refl).
  destruct s; reflexivity.
Qed.

Lemma is_finite_spec (u : float) : is_finite u = SFfinite (Prim2SF u).
Proof.
  unfold is_finite, is_nan, is_infinity.
  rewrite !eqb_spec, abs_spec, Prim2SF_infinity.
  destruct (Prim2SF u) as [s|s| |s m e] eqn:E.
  - reflexivity.
  - destruct s; reflexivity.
  - reflexivity.
  - rewrite (SFeqb_refl_finite (S754_finite s m e) eq_refl). reflexivity.
Qed.

(** A finite number times 0 is a zero; an infinity or NaN times 0 is
    NaN. *)
Lemma mul_zero_spec (u : float) :
  (SFfinite (Prim2SF u) = true /\ exists s, Prim2SF (u * 0) = S754_zero s)
  \/
  (SFfinite (Prim2SF u) = false /\ Prim2SF (u * 0) = S754_nan).
Proof.
  rewrite mul_spec, Prim2SF_zero.
  destruct (Prim2SF u) as [s|s| |s m e]; cbn.
  - left. split; [reflexivity|]. eexists. reflexivity.
  - right. split; reflexivity.
  - right. split; reflexivity.
  - left. split; [reflexivity|]. eexists. reflexivity.
Qed.

Lemma diagonal_entry (u : float) : (u * 0 + 1 =? 1) = is_finite u.
Proof.
  rewrite eqb_spec, add_spec, is_finite_spec.
  destruct (mul_zero_spec u) as [[-> [s ->]] | [-> ->]].
  - destruct s; reflexivity.
  - reflexivity.
Qed.

Lemma sum_entry (u v : float) :
  (u * 0 + v * 0 =? 0) = is_finite u && is_finite v.
Proof.
  rewrite eqb_spec, add_spec, !is_finite_spec.
  destruct (mul_zero_spec u) as [[-> [s ->]] | [-> ->]];
    destruct (mul_zero_spec v) as [[-> [s' ->]] | [-> ->]];
    try destruct s; try destruct s'; reflexivity.
Qed.

Lemma difference_entry (u v : float) :
  (u * 0 - v * 0 =? 0) = is_finite u && is_finite v.
Proof.
  rewrite eqb_spec, sub_spec, !is_finite_spec.
  destruct (mul_zero_spec u) as [[-> [s ->]] | [-> ->]];
    destruct (mul_zero_spec v) as [[-> [s' ->]] | [-> ->]];
    try destruct s; try destruct s'; reflexivity.
Qed.

Lemma square_finite (u : float) :
  is_finite (u * u) = true -> is_finite u = true.
Proof.
  rewrite !is_finite_spec, mul_spec.
  destruct (Prim2SF u) as [s|s| |s m e]; cbn; auto.
Qed.

Section Math.

Variables sin cos : float -> float.

Hypothesis sin_zero : sin 0 = 0.
Hypothesis cos_zero : cos 0 = 1.

(** With angle 0 the nine entries of the block are [p * 0 + 1] on the
    diagonal and [p * 0 + q * 0] or [p * 0 - q * 0] off it, [p] a product
    of two normalised components and [q] a normalised component. *)
Lemma zero_angle_entries (x y z : float) :
  let axisLength := sqrt ((x * x) + (y * y) + (z * z)) in
  let a := x / axisLength in
  let b := y / axisLength in
  let c := z / axisLength in
  getRotationMatrix sin cos 0 x y z
  = [ a * a * 0 + 1; a * b * 0 + c * 0; a * c * 0 - b * 0; 0;
      a * b * 0 - c * 0; b * b * 0 + 1; b * c * 0 + a * 0; 0;
      a * c * 0 + b * 0; b * c * 0 - a * 0; c * c * 0 + 1; 0;
      0; 0; 0; 1 ].
Proof.
  intros axisLength a b c.
  unfold getRotationMatrix. fold axisLength. fold a b c.
  change (0 * PI / 180) with 0. rewrite sin_zero, cos_zero.
  change (1 - 1) with 0. reflexivity.
Qed.

(** C5 (amended): in binary64, [getRotationMatrix(0, x, y, z)] equals the
    identity matrix, entry by entry under [==], exactly when the squares
    and the pairwise products of the normalised components that the code
    computes are finite numbers.  (They are not when the computed axis
    length is 0: the components are then infinite or NaN.) *)
Theorem getRotationMatrix_zero_angle_binary64 (x y z : float) :
  let axisLength := sqrt ((x * x) + (y * y) + (z * z)) in
  let a := x / axisLength in
  let b := y / axisLength in
  let c := z / axisLength in
  matrixEqb (getRotationMatrix sin cos 0 x y z) identityMatrix = true <->
  is_finite (a * a) = true /\ is_finite (b * b) = true /\
  is_finite (c * c) = true /\ is_finite (a * b) = true /\
  is_finite (b * c) = true /\ is_finite (a * c) = true.
Proof.
  intros axisLength a b c.
  rewrite zero_angle_entries. fold axisLength. fold a b c.
  unfold identityMatrix. cbn [matrixEqb].
  rewrite !diagonal_entry, !sum_entry, !difference_entry.
  change (0 =? 0) with true. change (1 =? 1) with true.
  pose proof (square_finite a). pose proof (square_finite b).
  pose proof (square_finite c).
  destruct (is_finite (a * a)), (is_finite (b * b)), (is_finite (c * c)),
    (is_finite (a * b)), (is_finite (b * c)), (is_finite (a * c)),
    (is_finite a), (is_finite b), (is_finite c); cbn; intuition congruence.
Qed.

(** Whatever [Math.sin] and [Math.cos] are beyond their values at 0: at the
    axis (1e-200, 0, 0) the nine entries of the block are NaN. *)
Lemma zero_angle_underflow :
  getRotationMatrix sin cos 0 tiny 0 0
  = [ nan; nan; nan; 0;  nan; nan; nan; 0;  nan; nan; nan; 0;
      0; 0; 0; 1 ].
Proof. rewrite zero_angle_entries. reflexivity. Qed.

(** X20: whenever the axis length the code computes is 0 (a zero axis, or
    a non-zero axis all of whose squares underflow), the result for angle 0
    is not the identity matrix: the division leaves no finite component. *)
Theorem getRotationMatrix_zero_length (x y z : float) :
  (sqrt ((x * x) + (y * y) + (z * z)) =? 0) = true ->
  matrixEqb (getRotationMatrix sin cos 0 x y z) identityMatrix = false.
Proof.
  intros Hzero. rewrite zero_angle_entries.
  unfold identityMatrix. cbn [matrixEqb]. rewrite diagonal_entry.
  destruct (is_finite (x / sqrt (x * x + y * y + z * z)
                       * (x / sqrt (x * x + y * y + z * z)))) eqn:Hfinite;
    [|reflexivity].
  apply square_finite in Hfinite.
  exfalso. revert Hzero Hfinite.
  rewrite eqb_spec, is_finite_spec, div_spec, Prim2SF_zero.
  destruct (Prim2SF (sqrt (x * x + y * y + z * z))) as [s|s| |s m e];
    destruct (Prim2SF x) as [sx|sx| |sx mx ex]; cbn;
    try discriminate; try (destruct s; discriminate).
Qed.

End Math.

Lemma getRotationMatrix_zero_length_witness :
  seriesSin 0 = 0 /\ seriesCos 0 = 1 /\
  (sqrt ((tiny * tiny) + (0 * 0) + (0 * 0)) =? 0) = true /\
  matrixEqb (getRotationMatrix seriesSin seriesCos 0 tiny 0 0) identityMatrix
  = false.
Proof.
  split; [reflexivity|]. split; [reflexivity|]. split; [reflexivity|].
  apply (getRotationMatrix_zero_length seriesSin seriesCos
           eq_refl eq_refl tiny 0 0).
  reflexivity.
Defined.

Lemma getRotationMatrix_zero_angle_binary64_witness :
  seriesSin 0 = 0 /\ seriesCos 0 = 1 /\
  (let axisLength := sqrt ((3 * 3) + (4 * 4) + (12 * 12)) in
   let a := 3 / axisLength in
   let b := 4 / axisLength in
   let c := 12 / axisLength in
   matrixEqb (getRotationMatrix seriesSin seriesCos 0 3 4 12) identityMatrix
   = true <->
   is_finite (a * a) = true /\ is_finite (b * b) = true /\
   is_finite (c * c) = true /\ is_finite (a * b) = true /\
   is_finite (b * c) = true /\ is_finite (a * c) = true).
Proof.
  split; [reflexivity|]. split; [reflexivity|].
  apply (getRotationMatrix_zero_angle_binary64 seriesSin seriesCos
           eq_refl eq_refl 3 4 12).
Defined.

(** C5 fails as stated at the non-zero axis (1e-200, 0, 0): its square
    underflows, the computed length is 0, and the block of the result is
    NaN. *)
Lemma getRotationMatrix_zero_angle_counterexample :
  (tiny =? 0) = false /\
  tiny * tiny = 0 /\
  getRotationMatrix seriesSin seriesCos 0 tiny 0 0
  = [ nan; nan; nan; 0;  nan; nan; nan; 0;  nan; nan; nan; 0;
      0; 0; 0; 1 ] /\
  matrixEqb (getRotationMatrix seriesSin seriesCos 0 tiny 0 0)
    identityMatrix = false.
Proof. repeat split; reflexivity. Qed.


End Binary64Facts.
